(** * mel2wav/modules.py: the MelGAN generator, the feature-pyramid
      discriminator and the mel-spectrogram extractor

    The networks of [mel2wav/modules.py] are embedded as module descriptors
    (what the constructors build) and as forward passes written once over an
    interface of tensor operations (what [torch] provides).  Two
    interpretations of the interface are given: tensors as their sizes, which
    settles every statement about shapes and about raised errors, and tensors
    as real-valued arrays, which settles the statements about value ranges.

    Conventions.  Python integers are [Z]; [//] and [%] are [Z.div] and
    [Z.modulo] (both round towards minus infinity, as Python does).  Python
    floats that appear as literals ([0.2], [0.02], [1e-5]) are rationals.
    A raised exception is a [Raise] in the [result] monad.  The tensor
    library is the PyTorch 1.x line the file is written against ([torch.stft]
    returning a real tensor with a trailing dimension of size two,
    [F.upsample]); its operators are modelled from its documentation and are
    marked as library semantics where they are defined. *)

From Stdlib Require Import ZArith QArith List Lia String Ascii Bool.
From Stdlib Require Import DecimalString.
From Stdlib Require Import Reals Lra.
Import ListNotations.

#[local] Open Scope string_scope.
#[local] Open Scope list_scope.
#[local] Open Scope Z_scope.

(* ===================================================================== *)
(** * Exceptions and the error monad *)
(* ===================================================================== *)

(** The Python exceptions that the modelled code can raise.  Errors raised
    by a [torch] operator carry the operator's message. *)
Inductive exn : Type :=
| RuntimeError (msg : string)
| ValueError (msg : string)
| AttributeError (msg : string)
| NotImplementedError
| IndexError
| UnboundLocalError
| ZeroDivisionError.

Inductive result (A : Type) : Type :=
| Ok (a : A)
| Raise (e : exn).

Arguments Ok {A} a.
Arguments Raise {A} e.

Definition bind {A B : Type} (r : result A) (k : A -> result B) : result B :=
  match r with
  | Ok a => k a
  | Raise e => Raise e
  end.

Declare Scope py_scope.
Delimit Scope py_scope with py.
Notation "x <- e ;; k" := (bind e (fun x => k))
  (at level 61, e at next level, right associativity) : py_scope.
Notation "' p <- e ;; k" := (bind e (fun x => let p := x in k))
  (at level 61, p pattern, e at next level, right associativity) : py_scope.
#[local] Open Scope py_scope.

(** [for x in xs: acc = f(acc, x)] where the body may raise. *)
Fixpoint foldM {A B : Type} (f : A -> B -> result A) (xs : list B) (acc : A)
  : result A :=
  match xs with
  | [] => Ok acc
  | x :: xs' => acc' <- f acc x ;; foldM f xs' acc'
  end.

Fixpoint mapM {A B : Type} (f : A -> result B) (xs : list A) : result (list B) :=
  match xs with
  | [] => Ok []
  | x :: xs' => y <- f x ;; ys <- mapM f xs' ;; Ok (y :: ys)
  end.

(* ===================================================================== *)
(** * Python built-ins used by the file *)
(* ===================================================================== *)

(** [range(n)] and [range(a, b)]. *)
Definition range (n : Z) : list Z :=
  map Z.of_nat (seq 0 (Z.to_nat n)).

Definition range2 (a b : Z) : list Z :=
  map (fun i => a + Z.of_nat i) (seq 0 (Z.to_nat (b - a))).

(** [s.find(sub)]: the first index of [sub] in [s], or [-1]. *)
Definition find (s sub : string) : Z :=
  match String.index 0 sub s with
  | Some i => Z.of_nat i
  | None => -1
  end.

(** ["%d" % n]. *)
Definition str (n : Z) : string := NilZero.string_of_int (Z.to_int n).

(** [len(xs)]. *)
Definition len {A : Type} (xs : list A) : Z := Z.of_nat (List.length xs).

(** [np.prod(xs)]. *)
Definition prod (xs : list Z) : Z := fold_left Z.mul xs 1.

(** [xs[i]] for a non-negative literal index. *)
Definition getitem {A : Type} (xs : list A) (i : nat) : result A :=
  match nth_error xs i with
  | Some x => Ok x
  | None => Raise IndexError
  end.

(** [xs[i] = v] for a non-negative literal index. *)
Fixpoint setitem {A : Type} (xs : list A) (i : nat) (v : A) : result (list A) :=
  match xs, i with
  | [], _ => Raise IndexError
  | _ :: xs', O => Ok (v :: xs')
  | x :: xs', S i' => ys <- setitem xs' i' v ;; Ok (x :: ys)
  end.

(** [d[k] = v] on an insertion-ordered dictionary ([nn.ModuleDict]): an
    existing key keeps its position, a new key goes last. *)
Fixpoint dict_set {A : Type} (d : list (string * A)) (k : string) (v : A)
  : list (string * A) :=
  match d with
  | [] => [(k, v)]
  | (k', v') :: d' =>
      if String.eqb k' k then (k, v) :: d' else (k', v') :: dict_set d' k v
  end.

(* ===================================================================== *)
(** * Module descriptors *)
(* ===================================================================== *)

(** How a parameter tensor was last written.  The values themselves are
    random draws; what the constructors determine is the distribution. *)
Inductive init : Type :=
| reset_parameters            (* the layer constructor's own default draw *)
| norm_except_dim             (* weight_norm: norm of each slice of the weight along dim 0 *)
| normal_ (mean std : Q)      (* tensor.normal_(mean, std) *)
| fill_ (c : Q).              (* tensor.fill_(c) *)

(** The attributes of a convolution that [weight_norm] and [weights_init]
    read and write.  [weight_g] and [weight_v] exist once [weight_norm] has
    been applied; the forward pass then recomputes [weight] from them. *)
Record parameters : Type := {
  weight : init;
  bias : init;
  weight_g : option init;
  weight_v : option init
}.

(** [torch.nn.modules.conv._ConvNd], in one spatial dimension. *)
Record ConvNd : Type := {
  in_channels : Z;
  out_channels : Z;
  kernel_size : Z;
  stride : Z;
  padding : Z;
  dilation : Z;
  output_padding : Z;
  groups : Z;
  params : parameters
}.

(** The [torch.nn] layers the file instantiates. *)
Inductive Layer : Type :=
| LeakyReLU (negative_slope : Q) (inplace : bool)
| ReflectionPad1d (pad : Z)
| Conv1d (c : ConvNd)
| ConvTranspose1d (c : ConvNd)
| Tanh
| AvgPool1d (kernel stride_ padding_ : Z) (count_include_pad : bool).

(** [m.__class__.__name__]. *)
Definition class_name (m : Layer) : string :=
  match m with
  | LeakyReLU _ _ => "LeakyReLU"
  | ReflectionPad1d _ => "ReflectionPad1d"
  | Conv1d _ => "Conv1d"
  | ConvTranspose1d _ => "ConvTranspose1d"
  | Tanh => "Tanh"
  | AvgPool1d _ _ _ _ => "AvgPool1d"
  end.

Definition set_params (c : ConvNd) (p : parameters) : ConvNd :=
  {| in_channels := in_channels c; out_channels := out_channels c;
     kernel_size := kernel_size c; stride := stride c; padding := padding c;
     dilation := dilation c; output_padding := output_padding c;
     groups := groups c; params := p |}.

(** Rewrite the parameters of a layer; a layer without a [weight] attribute
    raises [AttributeError] when the attribute is looked up. *)
Definition with_params (m : Layer) (f : parameters -> parameters) : result Layer :=
  match m with
  | Conv1d c => Ok (Conv1d (set_params c (f (params c))))
  | ConvTranspose1d c => Ok (ConvTranspose1d (set_params c (f (params c))))
  | _ => Raise (AttributeError "weight")
  end.

Definition set_weight (i : init) (p : parameters) : parameters :=
  {| weight := i; bias := bias p; weight_g := weight_g p; weight_v := weight_v p |}.

Definition set_bias (i : init) (p : parameters) : parameters :=
  {| weight := weight p; bias := i; weight_g := weight_g p; weight_v := weight_v p |}.

(** [def weights_init(m)], lines 9-15. *)
Definition weights_init (m : Layer) : result Layer :=
  let classname := class_name m in
  if negb (find classname "Conv" =? -1) then
    with_params m (set_weight (normal_ 0 (2 # 100)))
  else if negb (find classname "BatchNorm2d" =? -1) then
    m' <- with_params m (set_weight (normal_ 1 (2 # 100))) ;;
    with_params m' (set_bias (fill_ 0))
  else Ok m.

(** [weights_init] on a container module ([Sequential], [ResnetBlock],
    [Generator], ...): a container has neither [weight] nor [bias], so the
    call does nothing unless the class name selects one of the two
    branches, in which case the attribute lookup raises. *)
Definition weights_init_container (classname : string) : result unit :=
  if negb (find classname "Conv" =? -1) then Raise (AttributeError "weight")
  else if negb (find classname "BatchNorm2d" =? -1) then Raise (AttributeError "weight")
  else Ok tt.

(** [nn.Conv1d(in, out, kernel_size, stride, padding, dilation, groups)].
    Library semantics: the constructor checks that both channel counts are
    divisible by [groups] ([in_channels % groups] divides by zero when
    [groups] is zero) and draws weight and bias by [reset_parameters]. *)
Definition check_groups (in_ch out_ch g : Z) : result unit :=
  if g =? 0 then Raise ZeroDivisionError
  else if negb (in_ch mod g =? 0) then
    Raise (ValueError "in_channels must be divisible by groups")
  else if negb (out_ch mod g =? 0) then
    Raise (ValueError "out_channels must be divisible by groups")
  else Ok tt.

Definition fresh_parameters : parameters :=
  {| weight := reset_parameters; bias := reset_parameters;
     weight_g := None; weight_v := None |}.

Definition Conv1d_init (in_ch out_ch k s p d g : Z) : result Layer :=
  _ <- check_groups in_ch out_ch g ;;
  Ok (Conv1d {| in_channels := in_ch; out_channels := out_ch; kernel_size := k;
                stride := s; padding := p; dilation := d; output_padding := 0;
                groups := g; params := fresh_parameters |}).

(** [nn.ConvTranspose1d(in, out, kernel_size, stride, padding,
    output_padding)], with the default [groups=1], [dilation=1]. *)
Definition ConvTranspose1d_init (in_ch out_ch k s p op : Z) : result Layer :=
  _ <- check_groups in_ch out_ch 1 ;;
  Ok (ConvTranspose1d
        {| in_channels := in_ch; out_channels := out_ch; kernel_size := k;
           stride := s; padding := p; dilation := 1; output_padding := op;
           groups := 1; params := fresh_parameters |}).

(** [torch.nn.utils.weight_norm(module)].  Library semantics: the weight is
    split into a direction [weight_v] (the weight as it was) and a magnitude
    [weight_g] (its norm over each slice along dimension 0); the class of
    the module is unchanged. *)
Definition weight_norm (m : Layer) : result Layer :=
  with_params m (fun p =>
    {| weight := weight p; bias := bias p;
       weight_g := Some norm_except_dim; weight_v := Some (weight p) |}).

(** [def WNConv1d], lines 18-19: [weight_norm(nn.Conv1d(...))]. *)
Definition WNConv1d (in_ch out_ch k s p d g : Z) : result Layer :=
  m <- Conv1d_init in_ch out_ch k s p d g ;; weight_norm m.

(** [def WNConvTranspose1d], lines 22-23:
    [weight_norm(nn.ConvTranspose1d(...))]. *)
Definition WNConvTranspose1d (in_ch out_ch k s p op : Z) : result Layer :=
  m <- ConvTranspose1d_init in_ch out_ch k s p op ;; weight_norm m.

(* ===================================================================== *)
(** * The tensor operations the file calls *)
(* ===================================================================== *)

(** The forward passes below are written against this interface, one
    operation per [torch] function the source calls.  Operations that check
    their argument return a [result]; element-wise operations are total. *)
Module torch.

Class TensorOps (T : Type) : Type := {
  (* element-wise *)
  leaky_relu : Q -> T -> T;              (* F.leaky_relu(x, negative_slope) *)
  tanh : T -> T;                         (* torch.tanh(x) *)
  pow : T -> Z -> T;                     (* x ** n *)
  sqrt : T -> T;                         (* torch.sqrt(x) *)
  clamp_min : Q -> T -> T;               (* torch.clamp(x, min=m) *)
  log10 : T -> T;                        (* torch.log10(x) *)
  (* binary, with broadcasting *)
  add : T -> T -> result T;              (* x + y *)
  matmul : T -> T -> result T;           (* torch.matmul(a, b) *)
  (* layout *)
  pad_reflect : Z -> Z -> T -> result T; (* F.pad(x, (l, r), "reflect") *)
  squeeze : Z -> T -> result T;          (* x.squeeze(dim) *)
  unbind_last : T -> result (list T);    (* x.unbind(-1) *)
  (* kernels *)
  conv1d : ConvNd -> T -> result T;
  conv_transpose1d : ConvNd -> T -> result T;
  avg_pool1d : Z -> Z -> Z -> bool -> T -> result T;
  (* torch.stft(x, n_fft, hop_length, win_length, window, center=False) *)
  stft : T -> Z -> Z -> Z -> T -> result T;
  (* constants *)
  hann_window : Z -> T;                  (* torch.hann_window(n) *)
  (* librosa.filters.mel(sr, n_fft, n_mels, fmin, fmax) *)
  librosa_mel_fn : Z -> Z -> Z -> Q -> option Q -> T
}.

(** [bool(x == c)], the truth value Python takes of a comparison whose
    left operand is a tensor. *)
Class TensorTruth (T : Type) : Type := {
  eq_bool : T -> Z -> result bool
}.

(** [x.size()] and [F.upsample(x, size)] with its default mode, nearest
    neighbour. *)
Class TensorResize (T : Type) : Type := {
  size : T -> list Z;
  upsample : T -> Z -> result T
}.

End torch.

(** [layer(x)] for a [torch.nn] layer. *)
Definition Layer_forward {T : Type} `{torch.TensorOps T} (m : Layer) (x : T)
  : result T :=
  match m with
  | LeakyReLU s _ => Ok (torch.leaky_relu s x)
  | ReflectionPad1d p => torch.pad_reflect p p x
  | Conv1d c => torch.conv1d c x
  | ConvTranspose1d c => torch.conv_transpose1d c x
  | Tanh => Ok (torch.tanh x)
  | AvgPool1d k s p cip => torch.avg_pool1d k s p cip x
  end.

(** [nn.Sequential.forward]: each layer is applied to the output of the
    one before it. *)
Definition Sequential_forward {T : Type} `{torch.TensorOps T}
  (layers : list Layer) (x : T) : result T :=
  foldM (fun x m => Layer_forward m x) layers x.

(** [list.remove(v)] on a list of tensors: the first element whose
    comparison with [v] is true is dropped; [ValueError] if there is none. *)
Fixpoint list_remove {T : Type} `{torch.TensorTruth T} (xs : list T) (v : Z)
  : result (list T) :=
  match xs with
  | [] => Raise (ValueError "list.remove(x): x not in list")
  | x :: xs' =>
      b <- torch.eq_bool x v ;;
      if b : bool then Ok xs' else ys <- list_remove xs' v ;; Ok (x :: ys)
  end.

(* ===================================================================== *)
(** * class ResnetBlock, lines 72-85 *)
(* ===================================================================== *)

Module ResnetBlock.

Record t : Type := {
  block : list Layer;        (* nn.Sequential *)
  shortcut : Layer
}.

(** [__init__(self, dim, dilation=1)]. *)
Definition init (dim dilation : Z) : result t :=
  c1 <- WNConv1d dim dim 3 1 0 dilation 1 ;;
  c2 <- WNConv1d dim dim 1 1 0 1 1 ;;
  let block := [LeakyReLU (2 # 10) false; ReflectionPad1d dilation; c1;
                LeakyReLU (2 # 10) false; c2] in
  sc <- WNConv1d dim dim 1 1 0 1 1 ;;
  Ok {| block := block; shortcut := sc |}.

(** [forward(self, x)]: [self.shortcut(x) + self.block(x)]. *)
Definition forward {T : Type} `{torch.TensorOps T} (self : t) (x : T)
  : result T :=
  a <- Layer_forward (shortcut self) x ;;
  b <- Sequential_forward (block self) x ;;
  torch.add a b.

(** [self.apply(weights_init)]: the children in registration order, each
    before its parent. *)
Definition apply_weights_init (self : t) : result t :=
  block' <- mapM weights_init (block self) ;;
  _ <- weights_init_container "Sequential" ;;
  shortcut' <- weights_init (shortcut self) ;;
  _ <- weights_init_container "ResnetBlock" ;;
  Ok {| block := block'; shortcut := shortcut' |}.

End ResnetBlock.

(** The modules that [Generator] and [NLayerDiscriminator] hold as
    children: a single layer, a [nn.Sequential] of layers, or a
    [ResnetBlock]. *)
Inductive Submodule : Type :=
| Leaf (l : Layer)
| Sequential (layers : list Layer)
| Block (r : ResnetBlock.t).

Definition Submodule_forward {T : Type} `{torch.TensorOps T}
  (m : Submodule) (x : T) : result T :=
  match m with
  | Leaf l => Layer_forward l x
  | Sequential layers => Sequential_forward layers x
  | Block r => ResnetBlock.forward r x
  end.

Definition Submodule_apply_weights_init (m : Submodule) : result Submodule :=
  match m with
  | Leaf l => l' <- weights_init l ;; Ok (Leaf l')
  | Sequential layers =>
      layers' <- mapM weights_init layers ;;
      _ <- weights_init_container "Sequential" ;;
      Ok (Sequential layers')
  | Block r => r' <- ResnetBlock.apply_weights_init r ;; Ok (Block r')
  end.

(* ===================================================================== *)
(** * class Generator, lines 88-130 *)
(* ===================================================================== *)

Module Generator.

Record t : Type := {
  hop_length : Z;
  model : list Submodule     (* nn.Sequential *)
}.

(** The body of [for i, r in enumerate(ratios)], on the loop state
    [(model, mult)]. *)
Definition upsample_stage (ngf n_residual_layers : Z)
  (st : list Submodule * Z) (r : Z) : result (list Submodule * Z) :=
  let '(model, mult) := st in
  ct <- WNConvTranspose1d (mult * ngf) (mult * ngf / 2) (r * 2) r
          (r / 2 + r mod 2) (r mod 2) ;;
  let model := model ++ [Leaf (LeakyReLU (2 # 10) false); Leaf ct] in
  model <- foldM (fun model j =>
                    rb <- ResnetBlock.init (mult * ngf / 2) (3 ^ j) ;;
                    Ok (model ++ [Block rb]))
                 (range n_residual_layers) model ;;
  let mult := mult / 2 in
  Ok (model, mult).

Definition apply_weights_init (self : t) : result t :=
  model' <- mapM Submodule_apply_weights_init (model self) ;;
  _ <- weights_init_container "Sequential" ;;
  _ <- weights_init_container "Generator" ;;
  Ok {| hop_length := hop_length self; model := model' |}.

(** [__init__(self, input_size, ngf, n_residual_layers)]. *)
Definition init (input_size ngf n_residual_layers : Z) : result t :=
  let ratios := [8; 8; 2; 2] in
  let hop_length := prod ratios in
  let mult := 2 ^ len ratios in
  c0 <- WNConv1d input_size (mult * ngf) 7 1 0 1 1 ;;
  let model := [Leaf (ReflectionPad1d 3); Leaf c0] in
  st <- foldM (upsample_stage ngf n_residual_layers) ratios (model, mult) ;;
  let '(model, mult) := st in
  cl <- WNConv1d ngf 1 7 1 0 1 1 ;;
  let model := model ++ [Leaf (LeakyReLU (2 # 10) false);
                         Leaf (ReflectionPad1d 3); Leaf cl; Leaf Tanh] in
  apply_weights_init {| hop_length := hop_length; model := model |}.

(** [forward(self, x)]: [self.model(x)]. *)
Definition forward {T : Type} `{torch.TensorOps T} (self : t) (x : T)
  : result T :=
  foldM (fun x m => Submodule_forward m x) (model self) x.

End Generator.

(* ===================================================================== *)
(** * class NLayerDiscriminator, lines 133-251 *)
(* ===================================================================== *)

(** Lines 189, 227, 228 and 233 of the source are indented with tabs inside
    blocks indented with spaces; they are read here as statements of the
    block that surrounds them. *)

Module NLayerDiscriminator.

Record t : Type := {
  model : list (string * Submodule);   (* nn.ModuleDict *)
  toplayer : Layer;
  smooth1 : Layer; smooth2 : Layer; smooth3 : Layer; smooth4 : Layer;
  latlayer1 : Layer; latlayer2 : Layer; latlayer3 : Layer; latlayer4 : Layer;
  conv1d_0 : Layer; conv1d_1 : Layer; conv1d_2 : Layer; conv1d_3 : Layer;
  conv1d_4 : Layer
}.

(** The body of [for n in range(1, n_layers + 1)], on the loop state
    [(model, nf, nf_prev)]; [nf_prev] is unbound before the first
    iteration. *)
Definition downsample_stage (stride : Z)
  (st : list (string * Submodule) * Z * option Z) (n : Z)
  : result (list (string * Submodule) * Z * option Z) :=
  let '(model, nf, _) := st in
  let nf_prev := nf in
  let nf := Z.min (nf * stride) 1024 in
  c <- WNConv1d nf_prev nf (stride * 10 + 1) stride (stride * 5) 1
         (nf_prev / 4) ;;
  let model := dict_set model ("layer_" ++ str n)%string
                 (Sequential [c; LeakyReLU (2 # 10) true]) in
  Ok (model, nf, Some nf_prev).

(** [__init__(self, ndf, n_layers, downsampling_factor)]. *)
Definition init (ndf n_layers downsampling_factor : Z) : result t :=
  c0 <- WNConv1d 1 ndf 15 1 0 1 1 ;;
  let model := dict_set [] "layer_0"
                 (Sequential [ReflectionPad1d 7; c0; LeakyReLU (2 # 10) true]) in
  let nf := ndf in
  let stride := downsampling_factor in
  st <- foldM (downsample_stage stride) (range2 1 (n_layers + 1))
          (model, nf, None) ;;
  let '(model, nf, nf_prev) := st in
  let nf := Z.min (nf * 2) 1024 in
  nf_prev <- match nf_prev with
             | Some v => Ok v
             | None => Raise UnboundLocalError
             end ;;
  c <- WNConv1d nf_prev nf 5 1 2 1 1 ;;
  let model := dict_set model ("layer_" ++ str (n_layers + 1))%string
                 (Sequential [c; LeakyReLU (2 # 10) true]) in
  c <- WNConv1d nf 1 3 1 1 1 1 ;;
  let model := dict_set model ("layer_" ++ str (n_layers + 2))%string
                 (Leaf c) in
  toplayer <- Conv1d_init 1024 1024 1 1 0 1 1 ;;
  (* Smooth Layer *)
  smooth1 <- WNConv1d 1024 256 3 1 1 1 1 ;;
  smooth2 <- WNConv1d 256 256 3 1 1 1 1 ;;
  smooth3 <- WNConv1d 16 16 3 1 1 1 1 ;;
  smooth4 <- WNConv1d 16 16 3 1 1 1 1 ;;
  (* lateral layers *)
  latlayer1 <- WNConv1d 1024 1024 1 1 0 1 1 ;;
  latlayer2 <- WNConv1d 256 256 1 1 0 1 1 ;;
  latlayer3 <- WNConv1d 64 64 1 1 0 1 1 ;;
  latlayer4 <- WNConv1d 16 16 1 1 0 1 1 ;;
  conv1d_0 <- WNConvTranspose1d 1024 1024 5 1 2 3 ;;
  conv1d_1 <- WNConvTranspose1d 1024 256 41 4 20 3 ;;
  conv1d_2 <- WNConvTranspose1d 256 64 41 4 20 3 ;;
  conv1d_3 <- WNConvTranspose1d 64 16 41 4 20 3 ;;
  conv1d_4 <- WNConvTranspose1d 16 1 41 4 20 3 ;;
  Ok {| model := model; toplayer := toplayer;
        smooth1 := smooth1; smooth2 := smooth2; smooth3 := smooth3;
        smooth4 := smooth4;
        latlayer1 := latlayer1; latlayer2 := latlayer2;
        latlayer3 := latlayer3; latlayer4 := latlayer4;
        conv1d_0 := conv1d_0; conv1d_1 := conv1d_1; conv1d_2 := conv1d_2;
        conv1d_3 := conv1d_3; conv1d_4 := conv1d_4 |}.

(** [upsample_add(self, x, y)], lines 195-214: [_, _, L = y.size()], then
    [F.upsample(x, L) + y]. *)
Definition upsample_add {T : Type} `{torch.TensorOps T} `{torch.TensorResize T}
  (x y : T) : result T :=
  match torch.size y with
  | [_; _; L] =>
      u <- torch.upsample x L ;;
      k <- torch.add u y ;;
      Ok k
  | _ => Raise (ValueError "wrong number of values to unpack")
  end.

(** The bottom-up loop of [forward]: [x = layer(x)];
    [bottom_up.append(x)], on the state [(x, bottom_up)]. *)
Definition bottom_up_step {T : Type} `{torch.TensorOps T}
  (st : T * list T) (item : string * Submodule) : result (T * list T) :=
  let '(x, bottom_up) := st in
  let '(key, layer) := item in
  x <- Submodule_forward layer x ;;
  Ok (x, bottom_up ++ [x]).

(** [forward(self, x)], lines 216-251. *)
Definition forward {T : Type} `{torch.TensorOps T} `{torch.TensorTruth T}
  (self : t) (x : T) : result (list T) :=
  let bottom_up := [] in
  let top_down := [] in
  (* bottom - up *)
  st <- foldM bottom_up_step (model self) (x, bottom_up) ;;
  let '(x, bottom_up) := st in
  let bottom_up := rev bottom_up in
  b <- getitem bottom_up 0 ;;
  let top_down := top_down ++ [b] in
  bottom_up <- list_remove bottom_up 0 ;;

  b <- getitem bottom_up 0 ;;
  l <- Layer_forward (latlayer1 self) b ;;
  bottom_up <- setitem bottom_up 0 l ;;
  b <- getitem bottom_up 0 ;;
  let top_down := top_down ++ [b] in

  b <- getitem bottom_up 0 ;;
  u <- Layer_forward (conv1d_0 self) b ;;
  b <- getitem bottom_up 1 ;;
  l <- Layer_forward (latlayer1 self) b ;;
  result <- torch.add u l ;;
  let top_down := top_down ++ [result] in

  u <- Layer_forward (conv1d_1 self) result ;;
  b <- getitem bottom_up 2 ;;
  l <- Layer_forward (latlayer2 self) b ;;
  result <- torch.add u l ;;
  let top_down := top_down ++ [result] in

  u <- Layer_forward (conv1d_2 self) result ;;
  b <- getitem bottom_up 2 ;;
  l <- Layer_forward (latlayer3 self) b ;;
  result <- torch.add u l ;;
  let top_down := top_down ++ [result] in

  u <- Layer_forward (conv1d_3 self) result ;;
  b <- getitem bottom_up 3 ;;
  l <- Layer_forward (latlayer4 self) b ;;
  result <- torch.add u l ;;
  let top_down := top_down ++ [result] in

  result <- Layer_forward (conv1d_4 self) result ;;
  let top_down := top_down ++ [result] in
  Ok top_down.

Definition apply_weights_init (self : t) : result t :=
  model' <- mapM (fun '(key, m) =>
                    m' <- Submodule_apply_weights_init m ;; Ok (key, m'))
                 (model self) ;;
  _ <- weights_init_container "ModuleDict" ;;
  toplayer' <- weights_init (toplayer self) ;;
  smooth1' <- weights_init (smooth1 self) ;;
  smooth2' <- weights_init (smooth2 self) ;;
  smooth3' <- weights_init (smooth3 self) ;;
  smooth4' <- weights_init (smooth4 self) ;;
  latlayer1' <- weights_init (latlayer1 self) ;;
  latlayer2' <- weights_init (latlayer2 self) ;;
  latlayer3' <- weights_init (latlayer3 self) ;;
  latlayer4' <- weights_init (latlayer4 self) ;;
  conv1d_0' <- weights_init (conv1d_0 self) ;;
  conv1d_1' <- weights_init (conv1d_1 self) ;;
  conv1d_2' <- weights_init (conv1d_2 self) ;;
  conv1d_3' <- weights_init (conv1d_3 self) ;;
  conv1d_4' <- weights_init (conv1d_4 self) ;;
  _ <- weights_init_container "NLayerDiscriminator" ;;
  Ok {| model := model'; toplayer := toplayer';
        smooth1 := smooth1'; smooth2 := smooth2'; smooth3 := smooth3';
        smooth4 := smooth4';
        latlayer1 := latlayer1'; latlayer2 := latlayer2';
        latlayer3 := latlayer3'; latlayer4 := latlayer4';
        conv1d_0 := conv1d_0'; conv1d_1 := conv1d_1'; conv1d_2 := conv1d_2';
        conv1d_3 := conv1d_3'; conv1d_4 := conv1d_4' |}.

End NLayerDiscriminator.

(* ===================================================================== *)
(** * class Discriminator, lines 254-271 *)
(* ===================================================================== *)

Module Discriminator.

Record t : Type := {
  model : list (string * NLayerDiscriminator.t);   (* nn.ModuleDict *)
  downsample : Layer
}.

Definition apply_weights_init (self : t) : result t :=
  model' <- mapM (fun '(key, d) =>
                    d' <- NLayerDiscriminator.apply_weights_init d ;;
                    Ok (key, d'))
                 (model self) ;;
  _ <- weights_init_container "ModuleDict" ;;
  downsample' <- weights_init (downsample self) ;;
  _ <- weights_init_container "Discriminator" ;;
  Ok {| model := model'; downsample := downsample' |}.

(** [__init__(self, num_D, ndf, n_layers, downsampling_factor)]. *)
Definition init (num_D ndf n_layers downsampling_factor : Z) : result t :=
  model <- foldM (fun model i =>
                    d <- NLayerDiscriminator.init ndf n_layers
                           downsampling_factor ;;
                    Ok (dict_set model ("disc_" ++ str i)%string d))
                 (range num_D) [] ;;
  let downsample := AvgPool1d 4 2 1 false in
  apply_weights_init {| model := model; downsample := downsample |}.

(** [forward(self, x)]: every sub-discriminator is run on [x] itself; the
    call [x = self.downsample(x)] is commented out in the source. *)
Definition forward {T : Type} `{torch.TensorOps T} `{torch.TensorTruth T}
  (self : t) (x : T) : result (list (list T)) :=
  foldM (fun results '(key, disc) =>
           r <- NLayerDiscriminator.forward disc x ;;
           Ok (results ++ [r]))
        (model self) [].

End Discriminator.

(* ===================================================================== *)
(** * class Audio2Mel, lines 26-69 *)
(* ===================================================================== *)

Module Audio2Mel.

Record t (T : Type) : Type := {
  mel_basis : T;             (* buffer *)
  window : T;                (* buffer *)
  n_fft : Z;
  hop_length : Z;
  win_length : Z;
  sampling_rate : Z;
  n_mel_channels : Z
}.

Arguments mel_basis {T} _.
Arguments window {T} _.
Arguments n_fft {T} _.
Arguments hop_length {T} _.
Arguments win_length {T} _.
Arguments sampling_rate {T} _.
Arguments n_mel_channels {T} _.

(** [__init__(self, n_fft, hop_length, win_length, sampling_rate,
    n_mel_channels, mel_fmin, mel_fmax)]. *)
Definition init {T : Type} `{torch.TensorOps T}
  (n_fft hop_length win_length sampling_rate n_mel_channels : Z)
  (mel_fmin : Q) (mel_fmax : option Q) : t T :=
  let window := torch.hann_window win_length in
  let mel_basis := torch.librosa_mel_fn sampling_rate n_fft n_mel_channels
                     mel_fmin mel_fmax in
  {| mel_basis := mel_basis; window := window; n_fft := n_fft;
     hop_length := hop_length; win_length := win_length;
     sampling_rate := sampling_rate; n_mel_channels := n_mel_channels |}.

(** The constructor's default arguments. *)
Definition default {T : Type} `{torch.TensorOps T} : t T :=
  init 1024 256 1024 22050 80 0 None.

(** [forward(self, audio)], lines 54-69. *)
Definition forward {T : Type} `{torch.TensorOps T} (self : t T) (audio : T)
  : result T :=
  let p := (n_fft self - hop_length self) / 2 in
  audio <- torch.pad_reflect p p audio ;;
  audio <- torch.squeeze 1 audio ;;
  fft <- torch.stft audio (n_fft self) (hop_length self) (win_length self)
           (window self) ;;
  parts <- torch.unbind_last fft ;;
  match parts with
  | [real_part; imag_part] =>
      sq <- torch.add (torch.pow real_part 2) (torch.pow imag_part 2) ;;
      let magnitude := torch.sqrt sq in
      mel_output <- torch.matmul (mel_basis self) magnitude ;;
      let log_mel_spec := torch.log10 (torch.clamp_min (1 # 100000) mel_output) in
      Ok log_mel_spec
  | _ => Raise (ValueError "wrong number of values to unpack")
  end.

End Audio2Mel.

(* ===================================================================== *)
(** * Tensors as their sizes *)
(* ===================================================================== *)

(** Library semantics.  Each operation maps the size of its argument to
    the size of its result, and raises where the PyTorch operator rejects
    the argument.  The formulas are those of the PyTorch documentation of
    [Conv1d], [ConvTranspose1d], [AvgPool1d], [ReflectionPad1d] and [stft]. *)
Module Shape.

Definition t : Type := list Z.

(** [x.numel()]. *)
Definition numel (s : t) : Z := fold_left Z.mul s 1.

(** [F.pad(x, (l, r), "reflect")]: three-dimensional input only; each pad
    must be smaller than the padded dimension and the result non-empty. *)
Definition pad_reflect (l r : Z) (s : t) : result t :=
  match s with
  | [b; c; w] =>
      if negb ((l <? w) && (r <? w)) then
        Raise (RuntimeError
          "Padding size should be less than the corresponding input dimension")
      else if w + l + r <? 1 then
        Raise (RuntimeError "input is too small")
      else Ok [b; c; w + l + r]
  | _ => Raise NotImplementedError
  end.

(** [nn.Conv1d]: [L_out = (L + 2p - d(k-1) - 1) // s + 1]. *)
Definition conv1d (c : ConvNd) (s : t) : result t :=
  match s with
  | [b; ch; w] =>
      if negb (ch =? in_channels c) then
        Raise (RuntimeError "input channels do not match the weight")
      else if padding c <? 0 then
        Raise (RuntimeError "negative padding is not supported")
      else if stride c <=? 0 then
        Raise (RuntimeError "non-positive stride is not supported")
      else if dilation c <=? 0 then
        Raise (RuntimeError "non-positive dilation is not supported")
      else
        let span := dilation c * (kernel_size c - 1) + 1 in
        if w + 2 * padding c <? span then
          Raise (RuntimeError
            "Kernel size can't be greater than actual input size")
        else Ok [b; out_channels c; (w + 2 * padding c - span) / stride c + 1]
  | _ => Raise (RuntimeError "Expected 3-dimensional input")
  end.

(** [nn.ConvTranspose1d]:
    [L_out = (L - 1) s - 2p + d(k-1) + output_padding + 1]. *)
Definition conv_transpose1d (c : ConvNd) (s : t) : result t :=
  match s with
  | [b; ch; w] =>
      if negb (ch =? in_channels c) then
        Raise (RuntimeError "input channels do not match the weight")
      else if (padding c <? 0) || (output_padding c <? 0) then
        Raise (RuntimeError "negative padding is not supported")
      else if stride c <=? 0 then
        Raise (RuntimeError "non-positive stride is not supported")
      else if dilation c <=? 0 then
        Raise (RuntimeError "non-positive dilation is not supported")
      else if negb (output_padding c <? Z.max (stride c) (dilation c)) then
        Raise (RuntimeError
          "output padding must be smaller than either stride or dilation")
      else
        let w' := (w - 1) * stride c - 2 * padding c
                  + dilation c * (kernel_size c - 1) + output_padding c + 1 in
        if w' <? 1 then Raise (RuntimeError "output size is too small")
        else Ok [b; out_channels c; w']
  | _ => Raise (RuntimeError "Expected 3-dimensional input")
  end.

(** [nn.AvgPool1d] with [ceil_mode=False]: [L_out = (L + 2p - k) // s + 1]. *)
Definition avg_pool1d (k s p : Z) (cip : bool) (sh : t) : result t :=
  match sh with
  | [b; c; w] =>
      if (s <=? 0) || (w + 2 * p <? k) then
        Raise (RuntimeError "Output size is too small")
      else Ok [b; c; (w + 2 * p - k) / s + 1]
  | _ => Raise (RuntimeError "Expected 3-dimensional input")
  end.

(** Broadcasting of two sizes, aligned at the last dimension (the
    arguments are the sizes reversed). *)
Fixpoint broadcast_rev (a b : list Z) : result (list Z) :=
  match a, b with
  | [], _ => Ok b
  | _, [] => Ok a
  | x :: a', y :: b' =>
      r <- broadcast_rev a' b' ;;
      if x =? y then Ok (x :: r)
      else if x =? 1 then Ok (y :: r)
      else if y =? 1 then Ok (x :: r)
      else Raise (RuntimeError
        "The size of tensor a must match the size of tensor b")
  end.

Definition add (a b : t) : result t :=
  r <- broadcast_rev (rev a) (rev b) ;; Ok (rev r).

(** [torch.matmul] of a matrix with a matrix or with a batch of matrices,
    the two cases that [Audio2Mel.forward] can reach: [stft] returns a
    tensor of three or four dimensions. *)
Definition matmul (a b : t) : result t :=
  match a, b with
  | [n; k], [k'; m] =>
      if k =? k' then Ok [n; m] else Raise (RuntimeError "size mismatch")
  | [n; k], [bt; k'; m] =>
      if k =? k' then Ok [bt; n; m] else Raise (RuntimeError "size mismatch")
  | _, _ => Raise (RuntimeError "size mismatch")
  end.

(** [x.squeeze(dim)] for a non-negative [dim]: the dimension is dropped
    when its size is one. *)
Fixpoint squeeze_nat (dim : nat) (s : t) : result t :=
  match s, dim with
  | [], _ => Raise IndexError
  | d :: s', O => Ok (if d =? 1 then s' else s)
  | d :: s', S dim' => r <- squeeze_nat dim' s' ;; Ok (d :: r)
  end.

Definition squeeze (dim : Z) (s : t) : result t :=
  if dim <? 0 then Raise IndexError else squeeze_nat (Z.to_nat dim) s.

(** [x.unbind(-1)]: one tensor per index of the last dimension. *)
Definition unbind_last (s : t) : result (list t) :=
  match rev s with
  | [] => Raise (RuntimeError "dimension specified as -1 but tensor has no dimensions")
  | k :: r => Ok (repeat (rev r) (Z.to_nat k))
  end.

(** [torch.stft(..., center=False)], one-sided, on a signal or a batch of
    signals of length [n]: [n_fft // 2 + 1] frequencies and
    [1 + (n - n_fft) // hop_length] frames, real and imaginary part in a
    last dimension of size two. *)
Definition stft_frames (n n_fft hop_length : Z) : Z :=
  1 + (n - n_fft) / hop_length.

Definition stft_check (n n_fft hop_length win_length : Z) (window : t)
  : result unit :=
  if negb ((0 <? n_fft) && (n_fft <=? n)) then
    Raise (RuntimeError "expected 0 < n_fft <= signal length")
  else if hop_length <=? 0 then
    Raise (RuntimeError "expected hop_length > 0")
  else if negb ((0 <? win_length) && (win_length <=? n_fft)) then
    Raise (RuntimeError "expected 0 < win_length <= n_fft")
  else
    match window with
    | [w] => if w =? win_length then Ok tt
             else Raise (RuntimeError "expected a window of size win_length")
    | _ => Raise (RuntimeError "expected a 1D window tensor")
    end.

Definition stft (s : t) (n_fft hop_length win_length : Z) (window : t)
  : result t :=
  match s with
  | [n] =>
      _ <- stft_check n n_fft hop_length win_length window ;;
      Ok [n_fft / 2 + 1; stft_frames n n_fft hop_length; 2]
  | [b; n] =>
      _ <- stft_check n n_fft hop_length win_length window ;;
      Ok [b; n_fft / 2 + 1; stft_frames n n_fft hop_length; 2]
  | _ => Raise (RuntimeError "expected a 1D or 2D tensor")
  end.

#[global] Instance ops : torch.TensorOps t := {|
  torch.leaky_relu := fun _ s => s;
  torch.tanh := fun s => s;
  torch.pow := fun s _ => s;
  torch.sqrt := fun s => s;
  torch.clamp_min := fun _ s => s;
  torch.log10 := fun s => s;
  torch.add := add;
  torch.matmul := matmul;
  torch.pad_reflect := pad_reflect;
  torch.squeeze := squeeze;
  torch.unbind_last := unbind_last;
  torch.conv1d := conv1d;
  torch.conv_transpose1d := conv_transpose1d;
  torch.avg_pool1d := avg_pool1d;
  torch.stft := stft;
  torch.hann_window := fun n => [n];
  torch.librosa_mel_fn := fun sr n_fft n_mels fmin fmax => [n_mels; 1 + n_fft / 2]
|}.

(** [bool(x == c)]: ambiguous unless the tensor has exactly one element.
    For a one-element tensor the answer depends on the element; the size
    alone does not decide it, so it is a parameter [is_c] of the
    interpretation. *)
Definition eq_bool (is_c : t -> Z -> bool) (s : t) (c : Z) : result bool :=
  if numel s =? 1 then Ok (is_c s c)
  else if numel s =? 0 then
    Raise (RuntimeError "bool value of Tensor with no values is ambiguous")
  else
    Raise (RuntimeError
      "bool value of Tensor with more than one value is ambiguous").

Definition truth (is_c : t -> Z -> bool) : torch.TensorTruth t :=
  {| torch.eq_bool := eq_bool is_c |}.

(** [F.upsample(x, size)] with an integer [size]: every spatial dimension
    of a tensor of three, four or five dimensions becomes [size]; the
    spatial sizes of input and output must be positive. *)
Definition upsample (s : t) (size : Z) : result t :=
  match s with
  | b :: c :: spatial =>
      if negb ((1 <=? len spatial) && (len spatial <=? 3)) then
        Raise NotImplementedError
      else if negb (forallb (fun w => 0 <? w) spatial && (0 <? size)) then
        Raise (RuntimeError "Input and output sizes should be greater than 0")
      else Ok (b :: c :: map (fun _ => size) spatial)
  | _ => Raise NotImplementedError
  end.

#[global] Instance resize : torch.TensorResize t := {|
  torch.size := fun s => s;
  torch.upsample := upsample
|}.

End Shape.

(* ===================================================================== *)
(** * Tensors as real-valued arrays *)
(* ===================================================================== *)

(** A tensor is its size and its elements in row-major order.  The
    element-wise operations are defined on the elements, over the real
    numbers (the rounding of the floating-point kernels is not modelled).
    The operations that move or combine elements (padding, convolution with
    the learned weights, the Fourier transform, the mel filter bank) are
    the library's kernels and are a parameter [Kernels] of the
    interpretation. *)
Module Real.

Record t : Type := {
  size : Shape.t;
  data : list R
}.

Definition map_data (f : R -> R) (x : t) : t :=
  {| size := size x; data := map f (data x) |}.

(** [F.leaky_relu]: [max(0, v) + negative_slope * min(0, v)]. *)
Definition leaky_relu (negative_slope : Q) (v : R) : R :=
  (Rmax 0 v + Q2R negative_slope * Rmin 0 v)%R.

(** [torch.clamp(v, min=m)]. *)
Definition clamp_min (m : Q) (v : R) : R := Rmax (Q2R m) v.

(** [torch.log10]. *)
Definition log10 (v : R) : R := (ln v / ln 10)%R.

Record Kernels : Type := {
  k_add : t -> t -> result t;
  k_matmul : t -> t -> result t;
  k_pad_reflect : Z -> Z -> t -> result t;
  k_squeeze : Z -> t -> result t;
  k_unbind_last : t -> result (list t);
  k_conv1d : ConvNd -> t -> result t;
  k_conv_transpose1d : ConvNd -> t -> result t;
  k_avg_pool1d : Z -> Z -> Z -> bool -> t -> result t;
  k_stft : t -> Z -> Z -> Z -> t -> result t;
  k_hann_window : Z -> t;
  k_librosa_mel_fn : Z -> Z -> Z -> Q -> option Q -> t
}.

Definition ops (K : Kernels) : torch.TensorOps t := {|
  torch.leaky_relu := fun s => map_data (leaky_relu s);
  torch.tanh := map_data tanh;
  torch.pow := fun x n => map_data (fun v => powerRZ v n) x;
  torch.sqrt := map_data sqrt;
  torch.clamp_min := fun m => map_data (clamp_min m);
  torch.log10 := map_data log10;
  torch.add := k_add K;
  torch.matmul := k_matmul K;
  torch.pad_reflect := k_pad_reflect K;
  torch.squeeze := k_squeeze K;
  torch.unbind_last := k_unbind_last K;
  torch.conv1d := k_conv1d K;
  torch.conv_transpose1d := k_conv_transpose1d K;
  torch.avg_pool1d := k_avg_pool1d K;
  torch.stft := k_stft K;
  torch.hann_window := k_hann_window K;
  torch.librosa_mel_fn := k_librosa_mel_fn K
|}.

(** The all-zero tensor of a given size. *)
Definition zeros (s : Shape.t) : t :=
  {| size := s; data := repeat 0%R (Z.to_nat (Shape.numel s)) |}.

(** The kernels on all-zero data: with every learned magnitude and bias
    at zero and an all-zero input, each kernel returns the all-zero
    tensor of the size the operator produces. *)
Definition zero_kernels : Kernels := {|
  k_add := fun a b => s <- Shape.add (size a) (size b) ;; Ok (zeros s);
  k_matmul := fun a b => s <- Shape.matmul (size a) (size b) ;; Ok (zeros s);
  k_pad_reflect := fun l r x => s <- Shape.pad_reflect l r (size x) ;; Ok (zeros s);
  k_squeeze := fun d x => s <- Shape.squeeze d (size x) ;; Ok (zeros s);
  k_unbind_last := fun x => ss <- Shape.unbind_last (size x) ;; Ok (map zeros ss);
  k_conv1d := fun c x => s <- Shape.conv1d c (size x) ;; Ok (zeros s);
  k_conv_transpose1d := fun c x =>
    s <- Shape.conv_transpose1d c (size x) ;; Ok (zeros s);
  k_avg_pool1d := fun k s p cip x =>
    s' <- Shape.avg_pool1d k s p cip (size x) ;; Ok (zeros s');
  k_stft := fun x n_fft hop win w =>
    s <- Shape.stft (size x) n_fft hop win (size w) ;; Ok (zeros s);
  k_hann_window := fun n => zeros [n];
  k_librosa_mel_fn := fun sr n_fft n_mels fmin fmax => zeros [n_mels; 1 + n_fft / 2]
|}.

End Real.

(* ===================================================================== *)
(** * Weight normalisation *)
(* ===================================================================== *)

(** Library semantics of [torch.nn.utils.weight_norm] with the default
    [dim=0]: before every forward call the weight of the wrapped layer is
    recomputed as [weight_v * (weight_g / norm_except_dim(weight_v, 2, 0))];
    [weight_g] has one entry per index of dimension 0 of the weight, and
    the norm is taken over each slice along that dimension.

    What a slice along dimension 0 is depends on the layer.  The weight of
    [nn.Conv1d] has the size [out_channels, in_channels / groups, k], so
    for [WNConv1d] the slices are the output channels.  The weight of
    [nn.ConvTranspose1d] has the size [in_channels, out_channels / groups,
    k], so for [WNConvTranspose1d] the slices are the input channels. *)
Module WeightNorm.

(** The 2-norm of a flattened slice. *)
Definition norm (v : list R) : R :=
  sqrt (fold_right (fun x acc => (x * x + acc)%R) 0%R v).

(** One slice of the effective weight along dimension 0, flattened. *)
Definition compute_channel (g : R) (v : list R) : list R :=
  map (fun x => (x * (g / norm v))%R) v.

(** A weight of three dimensions is the list of its slices along
    dimension 0; a slice is indexed by dimension 1, then by the kernel
    position. *)
Definition slice : Type := list (list R).

Definition tensor : Type := list slice.

Definition flatten (s : slice) : list R := List.concat s.

(** One slice of the effective weight along dimension 0. *)
Definition compute_slice (g : R) (s : slice) : slice :=
  map (map (fun x => (x * (g / norm (flatten s)))%R)) s.

(** [compute_weight]: the effective weight from [weight_g] and
    [weight_v], slice by slice along dimension 0. *)
Fixpoint compute_weight (weight_g : list R) (weight_v : tensor) : tensor :=
  match weight_g, weight_v with
  | g :: gs, s :: vs => compute_slice g s :: compute_weight gs vs
  | _, _ => []
  end.

(** [w[c, :, :]] and [w[:, c, :]], flattened. *)
Definition dim0 (w : tensor) (c : nat) : option (list R) :=
  option_map flatten (nth_error w c).

Fixpoint dim1 (w : tensor) (c : nat) : option (list R) :=
  match w with
  | [] => Some []
  | s :: w' =>
      match nth_error s c, dim1 w' c with
      | Some row, Some rest => Some (row ++ rest)
      | _, _ => None
      end
  end.

(** The entries that belong to channel [c] of the axis laid out along
    dimension 1: with [cols] channels per group on that axis and [rows]
    indices of dimension 0 per group, channel [c] is column [c % cols] of
    the rows of group [c // cols]. *)
Definition group_slice (w : tensor) (rows cols c : nat) : option (list R) :=
  dim1 (firstn rows (skipn (Nat.div c cols * rows) w)) (Nat.modulo c cols).

(** The entries of a layer's weight that produce output channel [c]. *)
Definition output_channel (m : Layer) (w : tensor) (c : nat) : option (list R) :=
  match m with
  | Conv1d _ => dim0 w c
  | ConvTranspose1d cfg =>
      group_slice w (Z.to_nat (in_channels cfg / groups cfg))
                    (Z.to_nat (out_channels cfg / groups cfg)) c
  | _ => None
  end.

(** The entries of a layer's weight that read input channel [c]. *)
Definition input_channel (m : Layer) (w : tensor) (c : nat) : option (list R) :=
  match m with
  | ConvTranspose1d _ => dim0 w c
  | Conv1d cfg =>
      group_slice w (Z.to_nat (out_channels cfg / groups cfg))
                    (Z.to_nat (in_channels cfg / groups cfg)) c
  | _ => None
  end.

(** The direction with slice [c] along dimension 0 multiplied by [k]. *)
Fixpoint scale_dim0 (c : nat) (k : R) (v : tensor) : tensor :=
  match v, c with
  | [], _ => []
  | s :: v', O => map (map (fun x => (x * k)%R)) s :: v'
  | s :: v', S c' => s :: scale_dim0 c' k v'
  end.

End WeightNorm.

(* ===================================================================== *)
(** * The layers the constructors build, in closed form *)
(* ===================================================================== *)

(** The parameters of a weight-normalised convolution whose [weight]
    attribute was last written by [w]. *)
Definition wn_parameters (w : init) : parameters :=
  {| weight := w; bias := reset_parameters;
     weight_g := Some norm_except_dim; weight_v := Some reset_parameters |}.

Definition wn_conv (w : init) (in_ch out_ch k s p d : Z) : Layer :=
  Conv1d {| in_channels := in_ch; out_channels := out_ch; kernel_size := k;
            stride := s; padding := p; dilation := d; output_padding := 0;
            groups := 1; params := wn_parameters w |}.

Definition wn_conv_transpose (w : init) (in_ch out_ch k s p op : Z) : Layer :=
  ConvTranspose1d
    {| in_channels := in_ch; out_channels := out_ch; kernel_size := k;
       stride := s; padding := p; dilation := 1; output_padding := op;
       groups := 1; params := wn_parameters w |}.

Definition resnet_block (w : init) (dim dilation : Z) : ResnetBlock.t :=
  {| ResnetBlock.block :=
       [LeakyReLU (2 # 10) false; ReflectionPad1d dilation;
        wn_conv w dim dim 3 1 0 dilation;
        LeakyReLU (2 # 10) false; wn_conv w dim dim 1 1 0 1];
     ResnetBlock.shortcut := wn_conv w dim dim 1 1 0 1 |}.

(** One upsampling stage of the generator: the transposed convolution of
    ratio [r] and the residual blocks that follow it. *)
Definition generator_stage (w : init) (ngf n_residual_layers mult r : Z)
  : list Submodule :=
  [Leaf (LeakyReLU (2 # 10) false);
   Leaf (wn_conv_transpose w (mult * ngf) (mult * ngf / 2) (r * 2) r
           (r / 2 + r mod 2) (r mod 2))]
  ++ map (fun j => Block (resnet_block w (mult * ngf / 2) (3 ^ j)))
         (range n_residual_layers).

Definition generator_layers (w : init) (input_size ngf n_residual_layers : Z)
  : list Submodule :=
  [Leaf (ReflectionPad1d 3); Leaf (wn_conv w input_size (16 * ngf) 7 1 0 1)]
  ++ generator_stage w ngf n_residual_layers 16 8
  ++ generator_stage w ngf n_residual_layers 8 8
  ++ generator_stage w ngf n_residual_layers 4 2
  ++ generator_stage w ngf n_residual_layers 2 2
  ++ [Leaf (LeakyReLU (2 # 10) false); Leaf (ReflectionPad1d 3);
      Leaf (wn_conv w ngf 1 7 1 0 1); Leaf Tanh].

(** The convolutions of a module list, those inside residual blocks
    included, in the order [apply] visits them. *)
Definition layer_convs (l : Layer) : list ConvNd :=
  match l with
  | Conv1d c | ConvTranspose1d c => [c]
  | _ => []
  end.

Definition submodule_convs (m : Submodule) : list ConvNd :=
  match m with
  | Leaf l => layer_convs l
  | Sequential layers => flat_map layer_convs layers
  | Block r =>
      flat_map layer_convs (ResnetBlock.block r)
      ++ layer_convs (ResnetBlock.shortcut r)
  end.

(** The strides of the transposed convolutions of a module list. *)
Definition upsampling_strides (ms : list Submodule) : list Z :=
  flat_map (fun m => match m with
                     | Leaf (ConvTranspose1d c) => [stride c]
                     | _ => []
                     end) ms.

(** A parameter is zero when it was last written by a fill with zero. *)
Definition zero_filled (i : init) : bool :=
  match i with
  | fill_ c => Qeq_bool c 0
  | _ => false
  end.

(** The dilations of the residual blocks of a module list: the dilation of
    the kernel-size-3 convolution of each block. *)
Definition block_dilations (ms : list Submodule) : list Z :=
  flat_map (fun m =>
              match m with
              | Block r =>
                  flat_map (fun l =>
                              match l with
                              | Conv1d c =>
                                  if kernel_size c =? 3 then [dilation c] else []
                              | _ => []
                              end) (ResnetBlock.block r)
              | _ => []
              end) ms.

(** The input and output channel counts of the transposed convolutions of
    a module list. *)
Definition upsampling_channels (ms : list Submodule) : list (Z * Z) :=
  flat_map (fun m => match m with
                     | Leaf (ConvTranspose1d c) => [(in_channels c, out_channels c)]
                     | _ => []
                     end) ms.

(** The convolutions of a sub-discriminator and of a discriminator. *)
Definition nld_layers (d : NLayerDiscriminator.t) : list Layer :=
  [NLayerDiscriminator.toplayer d;
   NLayerDiscriminator.smooth1 d; NLayerDiscriminator.smooth2 d;
   NLayerDiscriminator.smooth3 d; NLayerDiscriminator.smooth4 d;
   NLayerDiscriminator.latlayer1 d; NLayerDiscriminator.latlayer2 d;
   NLayerDiscriminator.latlayer3 d; NLayerDiscriminator.latlayer4 d;
   NLayerDiscriminator.conv1d_0 d; NLayerDiscriminator.conv1d_1 d;
   NLayerDiscriminator.conv1d_2 d; NLayerDiscriminator.conv1d_3 d;
   NLayerDiscriminator.conv1d_4 d].

Definition nld_convs (d : NLayerDiscriminator.t) : list ConvNd :=
  flat_map (fun kv => submodule_convs (snd kv)) (NLayerDiscriminator.model d)
  ++ flat_map layer_convs (nld_layers d).

Definition discriminator_convs (d : Discriminator.t) : list ConvNd :=
  flat_map (fun kv => nld_convs (snd kv)) (Discriminator.model d)
  ++ layer_convs (Discriminator.downsample d).

(** Rounding up: the least [q] with [w <= q * k], for positive [k]. *)
Definition ceil_div (w k : Z) : Z := (w + k - 1) / k.

(** A size of three dimensions, [batch, channels, length]. *)
Definition rank3 (x : Shape.t) : Prop := exists b c w, x = [b; c; w].

(** The two lateral layers that [forward] applies to the same feature map
    [bottom_up[2]] expect different channel counts. *)
Definition lateral_conflict (d : NLayerDiscriminator.t) : Prop :=
  exists c2 c3,
    NLayerDiscriminator.latlayer2 d = Conv1d c2 /\
    NLayerDiscriminator.latlayer3 d = Conv1d c3 /\
    in_channels c2 = 256 /\ in_channels c3 = 64.

(** The state of a convolution's parameters before and after
    [weights_init]. *)
Definition default_bias (c : ConvNd) : Prop := bias (params c) = reset_parameters.

Definition redrawn (c : ConvNd) : Prop :=
  weight (params c) = normal_ 0 (2 # 100) /\ bias (params c) = reset_parameters.

(** All elements of a real tensor satisfy [P]. *)
Definition all_elements (P : R -> Prop) (x : Real.t) : Prop :=
  Forall P (Real.data x).

(* ===================================================================== *)
(** * The error monad and the loops *)
(* ===================================================================== *)

Lemma bind_Ok_inv {A B : Type} (r : result A) (k : A -> result B) (b : B) :
  bind r k = Ok b -> exists a, r = Ok a /\ k a = Ok b.
Proof.
  destruct r as [a | e]; simpl; intros E; [eauto | discriminate].
Qed.

Lemma foldM_app {A B : Type} (f : A -> B -> result A) (xs ys : list B) (acc : A) :
  foldM f (xs ++ ys) acc = (acc' <- foldM f xs acc ;; foldM f ys acc').
Proof.
  revert acc; induction xs as [| x xs IH]; intros acc; simpl; [reflexivity |].
  destruct (f acc x) as [a | e]; simpl; [apply IH | reflexivity].
Qed.

Lemma mapM_app {A B : Type} (f : A -> result B) (xs ys : list A) :
  mapM f (xs ++ ys) =
  (xs' <- mapM f xs ;; ys' <- mapM f ys ;; Ok (xs' ++ ys')).
Proof.
  induction xs as [| x xs IH]; simpl.
  - destruct (mapM f ys); reflexivity.
  - destruct (f x) as [y | e]; simpl; [| reflexivity].
    rewrite IH. destruct (mapM f xs) as [xs' | e]; simpl; [| reflexivity].
    destruct (mapM f ys); reflexivity.
Qed.

Lemma mapM_map_Ok {A B C : Type} (f : B -> result C) (g : A -> B) (h : A -> C)
  (xs : list A) :
  (forall x, f (g x) = Ok (h x)) -> mapM f (map g xs) = Ok (map h xs).
Proof.
  intros E; induction xs as [| x xs IH]; simpl; [reflexivity |].
  rewrite E, IH; reflexivity.
Qed.

(* ===================================================================== *)
(** * What the constructors build *)
(* ===================================================================== *)

Lemma check_groups_1 (in_ch out_ch : Z) : check_groups in_ch out_ch 1 = Ok tt.
Proof.
  unfold check_groups; simpl. rewrite !Z.mod_1_r; reflexivity.
Qed.

Lemma WNConv1d_1 (in_ch out_ch k s p d : Z) :
  WNConv1d in_ch out_ch k s p d 1 = Ok (wn_conv reset_parameters in_ch out_ch k s p d).
Proof.
  unfold WNConv1d, Conv1d_init. rewrite check_groups_1; reflexivity.
Qed.

Lemma WNConvTranspose1d_1 (in_ch out_ch k s p op : Z) :
  WNConvTranspose1d in_ch out_ch k s p op =
  Ok (wn_conv_transpose reset_parameters in_ch out_ch k s p op).
Proof.
  unfold WNConvTranspose1d, ConvTranspose1d_init.
  rewrite check_groups_1; reflexivity.
Qed.

Lemma ResnetBlock_init_eq (dim dilation : Z) :
  ResnetBlock.init dim dilation = Ok (resnet_block reset_parameters dim dilation).
Proof.
  unfold ResnetBlock.init. rewrite !WNConv1d_1; reflexivity.
Qed.

(** The inner loop [for j in range(n_residual_layers)] appends one block
    per [j]. *)
Lemma residual_loop (dim : Z) (js : list Z) (model : list Submodule) :
  foldM (fun model j =>
           rb <- ResnetBlock.init dim (3 ^ j) ;; Ok (model ++ [Block rb]))
        js model
  = Ok (model ++ map (fun j => Block (resnet_block reset_parameters dim (3 ^ j))) js).
Proof.
  revert model; induction js as [| j js IH]; intros model; simpl.
  - rewrite app_nil_r; reflexivity.
  - rewrite ResnetBlock_init_eq; simpl. rewrite IH, <- app_assoc; reflexivity.
Qed.

Lemma upsample_stage_eq (ngf n mult r : Z) (model : list Submodule) :
  Generator.upsample_stage ngf n (model, mult) r =
  Ok (model ++ generator_stage reset_parameters ngf n mult r, mult / 2).
Proof.
  unfold Generator.upsample_stage, generator_stage.
  rewrite WNConvTranspose1d_1; simpl.
  rewrite residual_loop; simpl. rewrite <- app_assoc; reflexivity.
Qed.

Lemma weights_init_block (w : init) (dim dilation : Z) :
  ResnetBlock.apply_weights_init (resnet_block w dim dilation) =
  Ok (resnet_block (normal_ 0 (2 # 100)) dim dilation).
Proof. reflexivity. Qed.

Lemma weights_init_stage (w : init) (ngf n mult r : Z) :
  mapM Submodule_apply_weights_init (generator_stage w ngf n mult r) =
  Ok (generator_stage (normal_ 0 (2 # 100)) ngf n mult r).
Proof.
  unfold generator_stage. rewrite mapM_app.
  rewrite (mapM_map_Ok _ _
    (fun j => Block (resnet_block (normal_ 0 (2 # 100)) (mult * ngf / 2) (3 ^ j)))).
  - reflexivity.
  - intros j; reflexivity.
Qed.

Lemma weights_init_layers (w : init) (input_size ngf n : Z) :
  mapM Submodule_apply_weights_init (generator_layers w input_size ngf n) =
  Ok (generator_layers (normal_ 0 (2 # 100)) input_size ngf n).
Proof.
  unfold generator_layers.
  rewrite !mapM_app, !weights_init_stage; reflexivity.
Qed.

(** The constructor always succeeds, and builds the layers of
    [generator_layers] with every convolution's weight redrawn. *)
Lemma Generator_init_eq (input_size ngf n : Z) :
  Generator.init input_size ngf n =
  Ok {| Generator.hop_length := 256;
        Generator.model := generator_layers (normal_ 0 (2 # 100)) input_size ngf n |}.
Proof.
  unfold Generator.init. rewrite !WNConv1d_1.
  change (2 ^ len [8; 8; 2; 2]) with 16. cbn [bind foldM].
  rewrite upsample_stage_eq; change (16 / 2) with 8; cbn [bind].
  rewrite upsample_stage_eq; change (8 / 2) with 4; cbn [bind].
  rewrite upsample_stage_eq; change (4 / 2) with 2; cbn [bind].
  rewrite upsample_stage_eq; cbn [bind].
  unfold Generator.apply_weights_init. cbn [Generator.model Generator.hop_length].
  rewrite <- !app_assoc.
  change ([Leaf (ReflectionPad1d 3);
           Leaf (wn_conv reset_parameters input_size (16 * ngf) 7 1 0 1)] ++
          generator_stage reset_parameters ngf n 16 8 ++
          generator_stage reset_parameters ngf n 8 8 ++
          generator_stage reset_parameters ngf n 4 2 ++
          generator_stage reset_parameters ngf n 2 2 ++
          [Leaf (LeakyReLU (2 # 10) false); Leaf (ReflectionPad1d 3);
           Leaf (wn_conv reset_parameters ngf 1 7 1 0 1); Leaf Tanh])
    with (generator_layers reset_parameters input_size ngf n).
  rewrite weights_init_layers. reflexivity.
Qed.

(* ===================================================================== *)
(** * Sizes through the layers *)
(* ===================================================================== *)

(** Settle the comparisons of a size check from the arithmetic facts in
    the context. *)
Ltac settle_tests :=
  repeat match goal with
  | |- context [Z.eqb ?a ?a] => rewrite (Z.eqb_refl a)
  | |- context [Z.eqb ?a ?b] => destruct (Z.eqb_spec a b); [try lia | try lia]
  | |- context [Z.ltb ?a ?b] => destruct (Z.ltb_spec a b); [try lia | try lia]
  | |- context [Z.leb ?a ?b] => destruct (Z.leb_spec a b); [try lia | try lia]
  end;
  cbn [negb andb orb bind].

Lemma pad_reflect_size (p b c w : Z) :
  0 <= p < w ->
  Shape.pad_reflect p p [b; c; w] = Ok [b; c; w + 2 * p].
Proof.
  intros Hp. unfold Shape.pad_reflect. settle_tests.
  f_equal; f_equal; f_equal; f_equal; lia.
Qed.

(** A stride-one convolution shortens the signal by [d (k - 1) - 2p]. *)
Lemma conv1d_size (w : init) (in_ch out_ch k p d b len_ : Z) :
  0 <= p -> 0 < d -> d * (k - 1) + 1 <= len_ + 2 * p ->
  Shape.conv1d
    {| in_channels := in_ch; out_channels := out_ch; kernel_size := k;
       stride := 1; padding := p; dilation := d; output_padding := 0;
       groups := 1; params := wn_parameters w |}
    [b; in_ch; len_]
  = Ok [b; out_ch; len_ + 2 * p - d * (k - 1)].
Proof.
  intros Hp Hd Hk. unfold Shape.conv1d.
  cbn [in_channels out_channels kernel_size stride padding dilation].
  settle_tests. rewrite Z.div_1_r.
  f_equal; f_equal; f_equal; f_equal; lia.
Qed.

(** A transposed convolution with stride [r], kernel [2r], padding
    [r // 2 + r % 2] and output padding [r % 2] multiplies the length by
    [r]. *)
Lemma conv_transpose1d_size (w : init) (in_ch out_ch r b len_ : Z) :
  2 <= r -> 1 <= len_ ->
  Shape.conv_transpose1d
    {| in_channels := in_ch; out_channels := out_ch; kernel_size := r * 2;
       stride := r; padding := r / 2 + r mod 2; dilation := 1;
       output_padding := r mod 2; groups := 1; params := wn_parameters w |}
    [b; in_ch; len_]
  = Ok [b; out_ch; len_ * r].
Proof.
  intros Hr Hl. unfold Shape.conv_transpose1d.
  cbn [in_channels out_channels kernel_size stride padding dilation output_padding].
  pose proof (Z.div_mod r 2 ltac:(lia)) as E.
  pose proof (Z.mod_pos_bound r 2 ltac:(lia)) as M.
  set (q := r / 2) in *. set (m := r mod 2) in *.
  assert (Hw : (len_ - 1) * r - 2 * (q + m) + 1 * (r * 2 - 1) + m + 1 = len_ * r) by nia.
  rewrite Hw.
  assert (1 <= len_ * r) by nia.
  settle_tests. reflexivity.
Qed.

Lemma add_same_size (b c w : Z) : Shape.add [b; c; w] [b; c; w] = Ok [b; c; w].
Proof.
  unfold Shape.add; cbn [rev app Shape.broadcast_rev bind].
  rewrite !Z.eqb_refl; reflexivity.
Qed.

(** A residual block keeps the size of its input when the dilation is
    positive and smaller than the length. *)
Lemma resnet_block_size (w : init) (dim d b len_ : Z) :
  1 <= d -> d < len_ ->
  ResnetBlock.forward (resnet_block w dim d) [b; dim; len_] = Ok [b; dim; len_].
Proof.
  intros Hd Hl. unfold ResnetBlock.forward, resnet_block, Sequential_forward.
  cbn [ResnetBlock.shortcut ResnetBlock.block foldM Layer_forward wn_conv bind
       torch.conv1d torch.pad_reflect torch.leaky_relu torch.add Shape.ops].
  rewrite conv1d_size by lia. cbn [bind].
  rewrite pad_reflect_size by lia. cbn [bind].
  rewrite conv1d_size by lia. cbn [bind].
  rewrite conv1d_size by lia. cbn [bind].
  replace (len_ + 2 * 0 - 1 * (1 - 1)) with len_ by lia.
  replace (len_ + 2 * d + 2 * 0 - d * (3 - 1) + 2 * 0 - 1 * (1 - 1)) with len_ by lia.
  apply add_same_size.
Qed.

(** The dilations [3 ** j] for [j] in [range(n)] are positive and at most
    [3 ** (n - 1)]. *)
Lemma range_bounds (n j : Z) : In j (range n) -> 0 <= j <= n - 1.
Proof.
  unfold range. rewrite in_map_iff. intros [i [<- Hi]].
  apply in_seq in Hi. lia.
Qed.

Lemma dilation_bounds (n j len_ : Z) :
  (n <= 0 \/ 3 ^ (n - 1) < len_) -> In j (range n) -> 1 <= 3 ^ j < len_.
Proof.
  intros Hn Hj. apply range_bounds in Hj.
  destruct Hn as [Hn | Hn]; [lia |].
  split.
  - assert (0 < 3 ^ j) by (apply Z.pow_pos_nonneg; lia). lia.
  - apply Z.le_lt_trans with (3 ^ (n - 1)); [| assumption].
    apply Z.pow_le_mono_r; lia.
Qed.

Lemma residual_blocks_size (w : init) (dim b len_ : Z) (js : list Z) :
  (forall j, In j js -> 1 <= 3 ^ j < len_) ->
  foldM (fun x m => Submodule_forward m x)
        (map (fun j => Block (resnet_block w dim (3 ^ j))) js) [b; dim; len_]
  = Ok [b; dim; len_].
Proof.
  induction js as [| j js IH]; intros H; [reflexivity |].
  cbn [map foldM Submodule_forward].
  rewrite resnet_block_size by (apply H; left; reflexivity).
  cbn [bind]. apply IH. intros j' Hj'; apply H; right; assumption.
Qed.

(** One upsampling stage multiplies the length by its ratio and halves the
    channel count. *)
Lemma generator_stage_size (w : init) (ngf n mult r b len_ : Z) :
  2 <= r -> 1 <= len_ -> (n <= 0 \/ 3 ^ (n - 1) < len_ * r) ->
  foldM (fun x m => Submodule_forward m x) (generator_stage w ngf n mult r)
        [b; mult * ngf; len_]
  = Ok [b; mult * ngf / 2; len_ * r].
Proof.
  intros Hr Hl Hn. unfold generator_stage. rewrite foldM_app.
  cbn [foldM Submodule_forward Layer_forward wn_conv_transpose bind
       torch.conv_transpose1d torch.leaky_relu Shape.ops].
  rewrite conv_transpose1d_size by assumption. cbn [bind].
  apply residual_blocks_size. intros j Hj.
  apply (dilation_bounds n); assumption.
Qed.

(** The whole generator, on the layers the constructor builds. *)
Lemma generator_layers_size (w : init) (input_size ngf n b frames : Z) :
  4 <= frames -> (n <= 0 \/ 3 ^ (n - 1) < 8 * frames) ->
  foldM (fun x m => Submodule_forward m x)
        (generator_layers w input_size ngf n) [b; input_size; frames]
  = Ok [b; 1; frames * 256].
Proof.
  intros Hf Hn. unfold generator_layers. rewrite foldM_app.
  cbn [foldM Submodule_forward Layer_forward wn_conv bind
       torch.conv1d torch.pad_reflect Shape.ops].
  rewrite pad_reflect_size by lia. cbn [bind].
  rewrite conv1d_size by lia. cbn [bind].
  replace (frames + 2 * 3 + 2 * 0 - 1 * (7 - 1)) with frames by lia.
  rewrite foldM_app, generator_stage_size by lia.
  cbn [bind]. replace (16 * ngf / 2) with (8 * ngf) by (Z.div_mod_to_equations; lia).
  rewrite foldM_app, generator_stage_size by lia.
  cbn [bind]. replace (8 * ngf / 2) with (4 * ngf) by (Z.div_mod_to_equations; lia).
  rewrite foldM_app, generator_stage_size by lia.
  cbn [bind]. replace (4 * ngf / 2) with (2 * ngf) by (Z.div_mod_to_equations; lia).
  rewrite foldM_app, generator_stage_size by lia.
  cbn [bind]. replace (2 * ngf / 2) with (1 * ngf) by (Z.div_mod_to_equations; lia).
  rewrite Z.mul_1_l.
  cbn [foldM Submodule_forward Layer_forward wn_conv bind
       torch.conv1d torch.pad_reflect torch.leaky_relu torch.tanh Shape.ops].
  rewrite pad_reflect_size by lia. cbn [bind].
  rewrite conv1d_size by lia. cbn [bind].
  f_equal; f_equal; f_equal; f_equal; lia.
Qed.

(* ===================================================================== *)
(** * Generator: output size *)
(* ===================================================================== *)

(** C1, the statement as written fails: a spectrogram of a single frame is
    of the shape [batch, input_size, F], and the forward pass of
    [Generator(80, 32, 3)] raises on it, in the first [ReflectionPad1d(3)],
    instead of returning a tensor of 256 samples. *)
Lemma Generator_forward_short_input :
  (g <- Generator.init 80 32 3 ;; Generator.forward g [1; 80; 1])
  = Raise (RuntimeError
      "Padding size should be less than the corresponding input dimension").
Proof. vm_compute. reflexivity. Qed.

(** C1, amended: for every input of shape [batch, input_size, F] with
    F >= 4 and with the largest residual dilation 3^(n_residual_layers - 1)
    smaller than 8 F (or no residual layer at all), the constructor succeeds
    and the forward pass returns a tensor of shape [batch, 1, F * 256]. *)
Theorem Generator_forward_size (input_size ngf n_residual_layers batch frames : Z) :
  4 <= frames ->
  (n_residual_layers <= 0 \/ 3 ^ (n_residual_layers - 1) < 8 * frames) ->
  (g <- Generator.init input_size ngf n_residual_layers ;;
   Generator.forward g [batch; input_size; frames])
  = Ok [batch; 1; frames * 256].
Proof.
  intros Hf Hn. rewrite Generator_init_eq. cbn [bind].
  unfold Generator.forward. cbn [Generator.model].
  apply generator_layers_size; assumption.
Qed.

Lemma Generator_forward_size_witness :
  (g <- Generator.init 80 32 3 ;; Generator.forward g [16; 80; 10])
  = Ok [16; 1; 10 * 256].
Proof.
  apply (Generator_forward_size 80 32 3 16 10).
  - lia.
  - right. vm_compute. reflexivity.
Defined.

(* ===================================================================== *)
(** * ResnetBlock: the size is preserved *)
(* ===================================================================== *)

(** C4, the statement as written fails: with dilation 1 and an input of
    length 1 the reflection padding of the block raises. *)
Lemma ResnetBlock_forward_short_input :
  (r <- ResnetBlock.init 4 1 ;; ResnetBlock.forward r [1; 4; 1])
  = Raise (RuntimeError
      "Padding size should be less than the corresponding input dimension").
Proof. vm_compute. reflexivity. Qed.

(** C4, amended: for every input of shape [batch, dim, L] and every
    dilation d with 1 <= d < L, [ResnetBlock(dim, dilation=d).forward]
    returns a tensor of the same shape [batch, dim, L]. *)
Theorem ResnetBlock_forward_size (dim dilation batch len_ : Z) :
  1 <= dilation -> dilation < len_ ->
  (r <- ResnetBlock.init dim dilation ;; ResnetBlock.forward r [batch; dim; len_])
  = Ok [batch; dim; len_].
Proof.
  intros Hd Hl. rewrite ResnetBlock_init_eq. cbn [bind].
  apply resnet_block_size; assumption.
Qed.

Lemma ResnetBlock_forward_size_witness :
  (r <- ResnetBlock.init 256 9 ;; ResnetBlock.forward r [16; 256; 80])
  = Ok [16; 256; 80].
Proof. apply (ResnetBlock_forward_size 256 9 16 80); lia. Defined.

(* ===================================================================== *)
(** * Generator: the fixed upsampling ratios *)
(* ===================================================================== *)

Lemma upsampling_strides_app (xs ys : list Submodule) :
  upsampling_strides (xs ++ ys) = upsampling_strides xs ++ upsampling_strides ys.
Proof. apply flat_map_app. Qed.

Lemma upsampling_strides_blocks (w : init) (dim : Z) (js : list Z) :
  upsampling_strides (map (fun j => Block (resnet_block w dim (3 ^ j))) js) = [].
Proof. induction js as [| j js IH]; [reflexivity | exact IH]. Qed.

Lemma upsampling_strides_stage (w : init) (ngf n mult r : Z) :
  upsampling_strides (generator_stage w ngf n mult r) = [r].
Proof.
  unfold generator_stage.
  rewrite upsampling_strides_app, upsampling_strides_blocks. reflexivity.
Qed.

(** C10: for every choice of [input_size], [ngf] and [n_residual_layers]
    the constructor builds a generator whose [hop_length] is 256 and whose
    transposed convolutions have, in order, the strides 8, 8, 2, 2. *)
Theorem Generator_hop_length (input_size ngf n_residual_layers : Z) :
  exists g,
    Generator.init input_size ngf n_residual_layers = Ok g /\
    Generator.hop_length g = 256 /\
    upsampling_strides (Generator.model g) = [8; 8; 2; 2].
Proof.
  eexists. split; [apply Generator_init_eq |]. split; [reflexivity |].
  cbn [Generator.model]. unfold generator_layers.
  rewrite !upsampling_strides_app, !upsampling_strides_stage. reflexivity.
Qed.

(* ===================================================================== *)
(** * Generator: what weights_init leaves behind *)
(* ===================================================================== *)

(** C9, the statement as written fails: after construction of
    [Generator(80, 32, 3)] it is not the case that every convolution has a
    zero-filled bias. *)
Lemma Generator_bias_not_zeroed :
  (g <- Generator.init 80 32 3 ;;
   Ok (forallb (fun c => zero_filled (bias (params c)))
               (flat_map submodule_convs (Generator.model g))))
  = Ok false.
Proof. vm_compute. reflexivity. Qed.

Lemma resnet_block_params (w : init) (dim d : Z) (c : ConvNd) :
  In c (submodule_convs (Block (resnet_block w dim d))) ->
  params c = wn_parameters w.
Proof.
  cbn. intros [<- | [<- | [<- | []]]]; reflexivity.
Qed.

Lemma generator_stage_params (w : init) (ngf n mult r : Z) (c : ConvNd) :
  In c (flat_map submodule_convs (generator_stage w ngf n mult r)) ->
  params c = wn_parameters w.
Proof.
  unfold generator_stage. rewrite flat_map_app, in_app_iff.
  intros [H | H].
  - cbn in H. destruct H as [<- | []]; reflexivity.
  - apply in_flat_map in H. destruct H as [m [Hm Hc]].
    apply in_map_iff in Hm. destruct Hm as [j [<- _]].
    apply (resnet_block_params _ _ _ _ Hc).
Qed.

Lemma generator_layers_params (w : init) (input_size ngf n : Z) (c : ConvNd) :
  In c (flat_map submodule_convs (generator_layers w input_size ngf n)) ->
  params c = wn_parameters w.
Proof.
  unfold generator_layers. rewrite !flat_map_app, !in_app_iff.
  intros [H | [H | [H | [H | [H | H]]]]];
    try (apply (generator_stage_params _ _ _ _ _ _ H)).
  - cbn in H. destruct H as [<- | []]; reflexivity.
  - cbn in H. destruct H as [<- | []]; reflexivity.
Qed.

(** C9, amended: after construction of a Generator, every convolutional
    and transposed-convolutional layer of the model has had its [weight]
    attribute redrawn from a Gaussian of mean 0 and standard deviation
    0.02, and its bias is as the layer's own constructor drew it:
    [weights_init] writes a bias only in its BatchNorm2d branch.  The
    direction [weight_v] and magnitude [weight_g] of the weight
    normalisation are not written either. *)
Theorem Generator_weights_init (input_size ngf n_residual_layers : Z)
  (g : Generator.t) (c : ConvNd) :
  Generator.init input_size ngf n_residual_layers = Ok g ->
  In c (flat_map submodule_convs (Generator.model g)) ->
  weight (params c) = normal_ 0 (2 # 100) /\
  bias (params c) = reset_parameters /\
  weight_g (params c) = Some norm_except_dim /\
  weight_v (params c) = Some reset_parameters.
Proof.
  rewrite Generator_init_eq. intros [= <-]. cbn [Generator.model].
  intros Hc. rewrite (generator_layers_params _ _ _ _ _ Hc).
  repeat split.
Qed.

Lemma Generator_weights_init_witness :
  exists g c,
    Generator.init 80 32 3 = Ok g /\
    In c (flat_map submodule_convs (Generator.model g)) /\
    in_channels c = 80 /\
    weight (params c) = normal_ 0 (2 # 100) /\
    bias (params c) = reset_parameters.
Proof.
  eexists. eexists.
  split; [apply Generator_init_eq |].
  split; [left; reflexivity |].
  split; [reflexivity |].
  split.
  - eapply (Generator_weights_init 80 32 3);
      [apply Generator_init_eq | left; reflexivity].
  - eapply (Generator_weights_init 80 32 3);
      [apply Generator_init_eq | left; reflexivity].
Defined.

(* ===================================================================== *)
(** * Audio2Mel: the number of frames *)
(* ===================================================================== *)

(** C2, the statement as written fails: a waveform of 512 samples gives
    2 frames, not 1 + 512 // 256 = 3. *)
Lemma Audio2Mel_frames_not_one_more :
  Audio2Mel.forward Audio2Mel.default [1; 1; 512] = Ok [1; 80; 2] /\
  2 <> 1 + 512 / 256.
Proof. split; [vm_compute; reflexivity | vm_compute; discriminate]. Qed.

(** A waveform of exactly [hop_length] samples is rejected by the
    reflection padding, whose 384 samples on each side need a longer
    input. *)
Lemma Audio2Mel_forward_short_input :
  Audio2Mel.forward Audio2Mel.default [1; 1; 256]
  = Raise (RuntimeError
      "Padding size should be less than the corresponding input dimension").
Proof. vm_compute. reflexivity. Qed.

(** C2, amended: with the default configuration, for every waveform of
    length L > 384 = (n_fft - hop_length) // 2, the forward pass returns
    [batch, 80, L // 256]: the frame count is floor(L / hop_length), which
    is the formula 1 + floor((padded_time - n_fft) / hop_length) at
    padded_time = L + 2 * ((n_fft - hop_length) // 2). *)
Theorem Audio2Mel_frames (batch len_ : Z) :
  384 < len_ ->
  Audio2Mel.forward Audio2Mel.default [batch; 1; len_]
  = Ok [batch; 80; len_ / 256] /\
  len_ / 256 = 1 + (len_ + 2 * ((1024 - 256) / 2) - 1024) / 256.
Proof.
  intros Hl.
  assert (E : len_ / 256 = 1 + (len_ + 2 * ((1024 - 256) / 2) - 1024) / 256).
  { change ((1024 - 256) / 2) with 384. Z.div_mod_to_equations. lia. }
  split; [| exact E].
  unfold Audio2Mel.forward, Audio2Mel.default, Audio2Mel.init.
  cbn [Audio2Mel.n_fft Audio2Mel.hop_length Audio2Mel.win_length
       Audio2Mel.window Audio2Mel.mel_basis
       torch.pad_reflect torch.squeeze torch.stft torch.unbind_last torch.add
       torch.pow torch.sqrt torch.matmul torch.log10 torch.clamp_min
       torch.hann_window torch.librosa_mel_fn Shape.ops].
  change ((1024 - 256) / 2) with 384.
  rewrite pad_reflect_size by lia. cbn [bind].
  change (Shape.squeeze 1 [batch; 1; len_ + 2 * 384])
    with (Ok (A:=Shape.t) [batch; len_ + 2 * 384]).
  cbn [bind]. unfold Shape.stft, Shape.stft_check.
  settle_tests.
  unfold Shape.stft_frames, Shape.unbind_last.
  cbn [rev app Z.to_nat bind].
  change (Pos.to_nat 2) with 2%nat. cbn [repeat].
  rewrite add_same_size. cbn [bind Shape.matmul].
  change (1 + 1024 / 2) with 513. change (1024 / 2 + 1) with 513.
  cbn [Z.eqb Pos.eqb].
  change ((1024 - 256) / 2) with 384 in E. rewrite E. reflexivity.
Qed.

Lemma Audio2Mel_frames_witness :
  Audio2Mel.forward Audio2Mel.default [16; 1; 8192] = Ok [16; 80; 8192 / 256] /\
  8192 / 256 = 1 + (8192 + 2 * ((1024 - 256) / 2) - 1024) / 256.
Proof. apply (Audio2Mel_frames 16 8192). lia. Defined.

(* ===================================================================== *)
(** * The discriminators *)
(* ===================================================================== *)

Lemma conv1d_size_gen (c : ConvNd) (b ch w : Z) :
  ch = in_channels c -> 0 <= padding c -> 0 < stride c -> 0 < dilation c ->
  dilation c * (kernel_size c - 1) + 1 <= w + 2 * padding c ->
  Shape.conv1d c [b; ch; w]
  = Ok [b; out_channels c;
        (w + 2 * padding c - (dilation c * (kernel_size c - 1) + 1)) / stride c + 1].
Proof.
  intros -> Hp Hs Hd Hk. unfold Shape.conv1d. settle_tests. reflexivity.
Qed.


Lemma quarter_bounds (w k : Z) :
  1 <= w -> 0 <= k ->
  1 <= (w + 2 * 20 - (1 * (41 - 1) + 1)) / 4 + 1 /\
  (4 * k < w -> k < (w + 2 * 20 - (1 * (41 - 1) + 1)) / 4 + 1).
Proof. intros Hw Hk. Z.div_mod_to_equations. lia. Qed.

Lemma numel_3 (b c w : Z) : Shape.numel [b; c; w] = b * c * w.
Proof. unfold Shape.numel; cbn. destruct b; reflexivity. Qed.

(** One bottom-up stage: a convolution followed by a leaky rectification. *)
Lemma bottom_up_step_conv (c : ConvNd) (key : string) (s : Q) (i : bool)
  (b ch w : Z) (acc : list Shape.t) :
  ch = in_channels c -> 0 <= padding c -> 0 < stride c -> 0 < dilation c ->
  dilation c * (kernel_size c - 1) + 1 <= w + 2 * padding c ->
  NLayerDiscriminator.bottom_up_step ([b; ch; w], acc)
    (key, Sequential [Conv1d c; LeakyReLU s i])
  = Ok ([b; out_channels c;
         (w + 2 * padding c - (dilation c * (kernel_size c - 1) + 1)) / stride c + 1],
        acc ++ [[b; out_channels c;
                 (w + 2 * padding c - (dilation c * (kernel_size c - 1) + 1))
                 / stride c + 1]]).
Proof.
  intros. unfold NLayerDiscriminator.bottom_up_step.
  cbn [Submodule_forward Sequential_forward foldM Layer_forward torch.conv1d
       torch.leaky_relu Shape.ops].
  rewrite conv1d_size_gen by assumption. reflexivity.
Qed.

Ltac conv_geometry :=
  cbn [in_channels out_channels kernel_size stride padding dilation];
  first [reflexivity | lia].

Ltac bottom_up_stage :=
  rewrite bottom_up_step_conv by conv_geometry;
  cbn [bind in_channels out_channels kernel_size stride padding dilation app].


(** [forward] raises as soon as the last bottom-up feature map has more
    than one element: [bottom_up.remove(0)] takes the truth value of its
    comparison with 0. *)
Lemma forward_raises_after_bottom_up (is_c : Shape.t -> Z -> bool)
  (d : NLayerDiscriminator.t) (x x' : Shape.t) (maps : list Shape.t)
  (b c w : Z) :
  foldM NLayerDiscriminator.bottom_up_step (NLayerDiscriminator.model d) (x, [])
  = Ok (x', maps ++ [[b; c; w]]) ->
  2 <= b * c * w ->
  NLayerDiscriminator.forward (H0 := Shape.truth is_c) d x
  = Raise (RuntimeError
      "bool value of Tensor with more than one value is ambiguous").
Proof.
  intros Hbu Hn. unfold NLayerDiscriminator.forward.
  rewrite Hbu. cbn [bind]. rewrite rev_app_distr.
  cbn [rev app getitem nth_error bind list_remove torch.eq_bool Shape.truth
       Shape.eq_bool].
  unfold Shape.eq_bool. rewrite numel_3.
  destruct (Z.eqb_spec (b * c * w) 1); [lia |].
  destruct (Z.eqb_spec (b * c * w) 0); [lia |].
  reflexivity.
Qed.

(** The bottom-up stack of the (16, 4, 4) configuration on a waveform
    [batch, 1, len_]. *)
Ltac bottom_up_16_4_4 len_ :=
  cbn [NLayerDiscriminator.model foldM bind];
  unfold NLayerDiscriminator.bottom_up_step at 1;
  cbn [Submodule_forward Sequential_forward Layer_forward foldM bind
       torch.pad_reflect torch.conv1d torch.leaky_relu Shape.ops app];
  rewrite pad_reflect_size by lia; cbn [bind];
  rewrite conv1d_size_gen by conv_geometry;
  cbn [bind in_channels out_channels kernel_size stride padding dilation];
  replace ((len_ + 2 * 7 + 2 * 0 - (1 * (15 - 1) + 1)) / 1 + 1) with len_
    by (rewrite Z.div_1_r; lia);
  destruct (quarter_bounds len_ 64 ltac:(lia) ltac:(lia)) as [?H1 ?H1'];
  set (l1 := (len_ + 2 * 20 - (1 * (41 - 1) + 1)) / 4 + 1) in *;
  destruct (quarter_bounds l1 16 ltac:(lia) ltac:(lia)) as [?H2 ?H2'];
  set (l2 := (l1 + 2 * 20 - (1 * (41 - 1) + 1)) / 4 + 1) in *;
  destruct (quarter_bounds l2 4 ltac:(lia) ltac:(lia)) as [?H3 ?H3'];
  set (l3 := (l2 + 2 * 20 - (1 * (41 - 1) + 1)) / 4 + 1) in *;
  destruct (quarter_bounds l3 1 ltac:(lia) ltac:(lia)) as [?H4 ?H4'];
  set (l4 := (l3 + 2 * 20 - (1 * (41 - 1) + 1)) / 4 + 1) in *;
  bottom_up_stage; fold l1;
  bottom_up_stage; fold l2;
  bottom_up_stage; fold l3;
  bottom_up_stage; fold l4;
  bottom_up_stage;
  replace ((l4 + 2 * 2 - (1 * (5 - 1) + 1)) / 1 + 1) with l4
    by (rewrite Z.div_1_r; lia);
  unfold NLayerDiscriminator.bottom_up_step;
  cbn [Submodule_forward Layer_forward torch.conv1d Shape.ops];
  rewrite conv1d_size_gen by conv_geometry;
  cbn [bind in_channels out_channels kernel_size stride padding dilation app];
  replace ((l4 + 2 * 1 - (1 * (3 - 1) + 1)) / 1 + 1) with l4
    by (rewrite Z.div_1_r; lia).

(** C3: [NLayerDiscriminator(16, 4, 4)] on a single-channel waveform
    [batch, 1, len_] of at least 8 samples (the first reflection padding
    needs more than 7), with more than one waveform in the batch or more
    than 256 samples.  The bottom-up stack succeeds and leaves seven
    feature maps; [bottom_up.remove(0)] then compares the first of them, a
    score map of more than one element, with the integer 0 and takes the
    truth value of the result, which raises.  No sequence of feature maps
    is returned, whatever the values of the tensors. *)
Theorem NLayerDiscriminator_forward_raises (is_c : Shape.t -> Z -> bool)
  (batch len_ : Z) :
  1 <= batch -> 8 <= len_ -> (2 <= batch \/ 256 < len_) ->
  (d <- NLayerDiscriminator.init 16 4 4 ;;
   NLayerDiscriminator.forward (H0 := Shape.truth is_c) d [batch; 1; len_])
  = Raise (RuntimeError
      "bool value of Tensor with more than one value is ambiguous").
Proof.
  intros Hb Hl Hn.
  set (r := NLayerDiscriminator.init 16 4 4). vm_compute in r. subst r.
  cbn [bind].
  eapply (forward_raises_after_bottom_up is_c _ _ _ [_; _; _; _; _; _]).
  - bottom_up_16_4_4 len_. reflexivity.
  - match goal with
    | |- 2 <= batch * 1 * ?X =>
        assert (1 <= X /\ (256 < len_ -> 2 <= X))
          by (Z.div_mod_to_equations; lia)
    end.
    nia.
Qed.

Lemma NLayerDiscriminator_forward_raises_witness :
  (d <- NLayerDiscriminator.init 16 4 4 ;;
   NLayerDiscriminator.forward (H0 := Shape.truth (fun _ _ => true)) d
     [1; 1; 8192])
  = Raise (RuntimeError
      "bool value of Tensor with more than one value is ambiguous").
Proof.
  apply (NLayerDiscriminator_forward_raises (fun _ _ => true) 1 8192); lia.
Defined.

(** The bottom-up stack of that discriminator does succeed: the failure is
    in the top-down part. *)
Lemma NLayerDiscriminator_bottom_up :
  (d <- NLayerDiscriminator.init 16 4 4 ;;
   st <- foldM NLayerDiscriminator.bottom_up_step (NLayerDiscriminator.model d)
           ([1; 1; 8192], []) ;;
   Ok (snd st))
  = Ok [[1; 16; 8192]; [1; 64; 2048]; [1; 256; 512]; [1; 1024; 128];
        [1; 1024; 32]; [1; 1024; 32]; [1; 1; 32]].
Proof. vm_compute. reflexivity. Qed.

(** A discriminator without members returns the empty sequence. *)
Lemma Discriminator_forward_empty (is_c : Shape.t -> Z -> bool) (x : Shape.t) :
  (d <- Discriminator.init 0 16 4 4 ;;
   Discriminator.forward (H0 := Shape.truth is_c) d x)
  = Ok [].
Proof. reflexivity. Qed.

(** C7: [Discriminator(3, 16, 4, 4)] on a batch of waveforms
    [batch, 1, len_] of at least 8 samples, with more than one waveform or
    more than 256 samples.  The first sub-discriminator is called on the
    input itself and raises in its [bottom_up.remove(0)]; the exception
    propagates and no outer sequence is returned. *)
Theorem Discriminator_forward_raises (is_c : Shape.t -> Z -> bool)
  (batch len_ : Z) :
  1 <= batch -> 8 <= len_ -> (2 <= batch \/ 256 < len_) ->
  (d <- Discriminator.init 3 16 4 4 ;;
   Discriminator.forward (H0 := Shape.truth is_c) d [batch; 1; len_])
  = Raise (RuntimeError
      "bool value of Tensor with more than one value is ambiguous").
Proof.
  intros Hb Hl Hn.
  set (r := Discriminator.init 3 16 4 4). vm_compute in r. subst r.
  cbn [bind]. unfold Discriminator.forward.
  cbn [Discriminator.model foldM].
  erewrite (forward_raises_after_bottom_up is_c _ _ _ [_; _; _; _; _; _]).
  - reflexivity.
  - bottom_up_16_4_4 len_. reflexivity.
  - match goal with
    | |- 2 <= batch * 1 * ?X =>
        assert (1 <= X /\ (256 < len_ -> 2 <= X))
          by (Z.div_mod_to_equations; lia)
    end.
    nia.
Qed.

Lemma Discriminator_forward_raises_witness :
  (d <- Discriminator.init 3 16 4 4 ;;
   Discriminator.forward (H0 := Shape.truth (fun _ _ => true)) d [1; 1; 8192])
  = Raise (RuntimeError
      "bool value of Tensor with more than one value is ambiguous").
Proof.
  apply (Discriminator_forward_raises (fun _ _ => true) 1 8192); lia.
Defined.

(* ===================================================================== *)
(** * Value ranges *)
(* ===================================================================== *)

#[local] Open Scope R_scope.

Lemma tanh_range (x : R) : -1 <= tanh x <= 1.
Proof.
  unfold tanh, sinh, cosh.
  pose proof (exp_pos x) as Ha. pose proof (exp_pos (- x)) as Hb.
  set (a := exp x) in *. set (b := exp (- x)) in *.
  assert (Hd : 0 < (a + b) / 2) by lra.
  split.
  - apply Rmult_le_reg_r with ((a + b) / 2); [exact Hd |].
    unfold Rdiv at 2. rewrite Rmult_assoc, Rinv_l by lra. lra.
  - apply Rmult_le_reg_r with ((a + b) / 2); [exact Hd |].
    unfold Rdiv at 1. rewrite Rmult_assoc, Rinv_l by lra. lra.
Qed.

Lemma ln_10_pos : 0 < ln 10.
Proof. rewrite <- ln_1. apply ln_increasing; lra. Qed.

Lemma log10_monotone (x y : R) : 0 < x -> x <= y -> Real.log10 x <= Real.log10 y.
Proof.
  intros Hx [Hlt | ->]; [| apply Rle_refl].
  unfold Real.log10. apply Rmult_le_compat_r.
  - left. apply Rinv_0_lt_compat, ln_10_pos.
  - left. apply ln_increasing; assumption.
Qed.

Lemma log10_clamp_min (m : Q) (v : R) :
  0 < Q2R m -> Real.log10 (Q2R m) <= Real.log10 (Real.clamp_min m v).
Proof.
  intros Hm. apply log10_monotone; [exact Hm |].
  unfold Real.clamp_min. apply Rmax_l.
Qed.

Lemma floor_pos : 0 < Q2R (1 # 100000).
Proof. unfold Q2R; cbn. lra. Qed.

(** C5: every element of the log-mel spectrogram that [Audio2Mel.forward]
    returns is at least log10(1e-5), whatever the kernels, the buffers and
    the configuration of the extractor. *)
Theorem Audio2Mel_forward_floor (K : Real.Kernels) (self : Audio2Mel.t Real.t)
  (audio log_mel_spec : Real.t) :
  Audio2Mel.forward (H := Real.ops K) self audio = Ok log_mel_spec ->
  all_elements (fun v => Real.log10 (Q2R (1 # 100000)) <= v) log_mel_spec.
Proof.
  unfold Audio2Mel.forward. intros Hf.
  apply bind_Ok_inv in Hf. destruct Hf as [padded [_ Hf]].
  apply bind_Ok_inv in Hf. destruct Hf as [squeezed [_ Hf]].
  apply bind_Ok_inv in Hf. destruct Hf as [fft [_ Hf]].
  apply bind_Ok_inv in Hf. destruct Hf as [parts [_ Hf]].
  destruct parts as [| real_part [| imag_part [| extra parts]]]; try discriminate.
  apply bind_Ok_inv in Hf. destruct Hf as [sq [_ Hf]].
  apply bind_Ok_inv in Hf. destruct Hf as [mel_output [_ Hf]].
  injection Hf as <-.
  unfold all_elements. cbn. rewrite Forall_forall. intros v Hv.
  apply in_map_iff in Hv. destruct Hv as [u [<- Hu]].
  apply in_map_iff in Hu. destruct Hu as [u' [<- _]].
  apply log10_clamp_min, floor_pos.
Qed.

Lemma Audio2Mel_forward_floor_witness :
  exists log_mel_spec,
    Audio2Mel.forward (H := Real.ops Real.zero_kernels)
      (Audio2Mel.default (H := Real.ops Real.zero_kernels))
      (Real.zeros [1; 1; 512]%Z) = Ok log_mel_spec /\
    Real.size log_mel_spec = [1; 80; 2]%Z /\
    all_elements (fun v => Real.log10 (Q2R (1 # 100000)) <= v) log_mel_spec.
Proof.
  eexists. split; [reflexivity |]. split; [reflexivity |].
  apply (Audio2Mel_forward_floor Real.zero_kernels
           (Audio2Mel.default (H := Real.ops Real.zero_kernels))
           (Real.zeros [1; 1; 512]%Z)).
  reflexivity.
Defined.

Lemma forward_ends_in_tanh (K : Real.Kernels) (ms : list Submodule) (x y : Real.t) :
  foldM (fun x m => Submodule_forward (H := Real.ops K) m x) (ms ++ [Leaf Tanh]) x
  = Ok y ->
  exists z, y = Real.map_data tanh z.
Proof.
  rewrite foldM_app. intros Hf.
  apply bind_Ok_inv in Hf. destruct Hf as [z [_ Hf]].
  cbn in Hf. injection Hf as <-. exists z; reflexivity.
Qed.

Lemma generator_layers_end (w : init) (input_size ngf n : Z) :
  exists ms, generator_layers w input_size ngf n = ms ++ [Leaf Tanh].
Proof.
  unfold generator_layers.
  change [Leaf (LeakyReLU (2 # 10) false); Leaf (ReflectionPad1d 3);
          Leaf (wn_conv w ngf 1 7 1 0 1); Leaf Tanh]
    with ([Leaf (LeakyReLU (2 # 10) false); Leaf (ReflectionPad1d 3);
           Leaf (wn_conv w ngf 1 7 1 0 1)] ++ [Leaf Tanh]).
  rewrite !app_assoc. eexists; reflexivity.
Qed.

(** C6: every element of the waveform that [Generator.forward] returns
    lies in [-1, 1], whatever the constructor arguments, the input and the
    kernels: the last module of the model is the tanh. *)
Theorem Generator_forward_range (K : Real.Kernels)
  (input_size ngf n_residual_layers : Z) (g : Generator.t) (x y : Real.t) :
  Generator.init input_size ngf n_residual_layers = Ok g ->
  Generator.forward (H := Real.ops K) g x = Ok y ->
  all_elements (fun v => -1 <= v <= 1) y.
Proof.
  rewrite Generator_init_eq. intros [= <-].
  unfold Generator.forward. cbn [Generator.model].
  destruct (generator_layers_end (normal_ 0 (2 # 100)) input_size ngf
              n_residual_layers) as [ms ->].
  intros Hf. apply forward_ends_in_tanh in Hf. destruct Hf as [z ->].
  unfold all_elements. cbn. rewrite Forall_forall. intros v Hv.
  apply in_map_iff in Hv. destruct Hv as [u [<- _]]. apply tanh_range.
Qed.

Lemma Generator_forward_range_witness :
  exists g y,
    Generator.init 2 1 1 = Ok g /\
    Generator.forward (H := Real.ops Real.zero_kernels) g (Real.zeros [1; 2; 4]%Z)
    = Ok y /\
    Real.size y = [1; 1; 1024]%Z /\
    all_elements (fun v => -1 <= v <= 1) y.
Proof.
  eexists. eexists.
  split; [apply Generator_init_eq |].
  split; [reflexivity |]. split; [reflexivity |].
  eapply (Generator_forward_range Real.zero_kernels 2 1 1 _
            (Real.zeros [1; 2; 4]%Z));
    [apply Generator_init_eq | reflexivity].
Defined.

(* ===================================================================== *)
(** * Weight normalisation: the norm of the effective weight *)
(* ===================================================================== *)

Lemma sum_squares_nonneg (v : list R) :
  0 <= fold_right (fun x acc => x * x + acc) 0 v.
Proof.
  induction v as [| x v IH]; cbn; [lra |]. nra.
Qed.

Lemma sum_squares_scale (k : R) (v : list R) :
  fold_right (fun x acc => x * x + acc) 0 (map (fun x => x * k) v)
  = k * k * fold_right (fun x acc => x * x + acc) 0 v.
Proof.
  induction v as [| x v IH]; cbn; [ring |]. rewrite IH. ring.
Qed.

Lemma norm_nonneg (v : list R) : 0 <= WeightNorm.norm v.
Proof. apply sqrt_pos. Qed.

Lemma norm_scale (k : R) (v : list R) :
  WeightNorm.norm (map (fun x => x * k) v) = Rabs k * WeightNorm.norm v.
Proof.
  unfold WeightNorm.norm. rewrite sum_squares_scale.
  rewrite sqrt_mult; [| nra | apply sum_squares_nonneg].
  f_equal. apply sqrt_Rsqr_abs.
Qed.

Lemma compute_channel_norm (g : R) (v : list R) :
  WeightNorm.norm v <> 0 ->
  WeightNorm.norm (WeightNorm.compute_channel g v) = Rabs g.
Proof.
  intros Hv. unfold WeightNorm.compute_channel. rewrite norm_scale.
  pose proof (norm_nonneg v) as Hn.
  unfold Rdiv. rewrite Rabs_mult, Rabs_inv.
  rewrite (Rabs_pos_eq (WeightNorm.norm v)) by exact Hn.
  rewrite Rmult_assoc, Rinv_l by exact Hv. ring.
Qed.

Lemma norm_3_4 : WeightNorm.norm [3; 4] = 5.
Proof.
  unfold WeightNorm.norm; cbn.
  replace (3 * 3 + (4 * 4 + 0)) with (5 * 5) by ring.
  apply sqrt_square; lra.
Qed.

Lemma norm_singleton (x : R) : WeightNorm.norm [x] = Rabs x.
Proof.
  unfold WeightNorm.norm; cbn. rewrite Rplus_0_r. apply sqrt_Rsqr_abs.
Qed.

Lemma flatten_compute_slice (g : R) (s : WeightNorm.slice) :
  WeightNorm.flatten (WeightNorm.compute_slice g s)
  = WeightNorm.compute_channel g (WeightNorm.flatten s).
Proof.
  unfold WeightNorm.flatten, WeightNorm.compute_slice, WeightNorm.compute_channel.
  symmetry. apply concat_map.
Qed.

Lemma compute_weight_dim0 (weight_g : list R) (weight_v : WeightNorm.tensor)
  (c : nat) (g : R) (s : WeightNorm.slice) :
  nth_error weight_g c = Some g ->
  nth_error weight_v c = Some s ->
  WeightNorm.dim0 (WeightNorm.compute_weight weight_g weight_v) c
  = Some (WeightNorm.compute_channel g (WeightNorm.flatten s)).
Proof.
  revert weight_v c.
  induction weight_g as [| g0 gs IH]; intros [| s0 vs] [| c] Hg Hs;
    try discriminate; cbn in Hg, Hs.
  - injection Hg as <-. injection Hs as <-.
    unfold WeightNorm.dim0. cbn. rewrite flatten_compute_slice. reflexivity.
  - exact (IH vs c Hg Hs).
Qed.

(** C8, the statement as written fails, in two ways.  On a [WNConv1d]
    with one output channel, magnitude -1 and direction (1), the effective
    weight of output channel 0 has norm 1, not -1.  On a
    [WNConvTranspose1d] with one input and two output channels, kernel
    size 1, direction (3, 4) and the positive magnitude 5, the effective
    weight of output channel 0 has norm 3, not 5: the magnitude belongs to
    the input channel. *)
Lemma weight_norm_not_per_output_channel :
  (WeightNorm.norm (WeightNorm.flatten [[1]]) <> 0 /\
   exists w,
     WeightNorm.output_channel (wn_conv reset_parameters 1 1 1 1 0 1)
       (WeightNorm.compute_weight [-1] [[[1]]]) 0 = Some w /\
     WeightNorm.norm w <> -1) /\
  (WeightNorm.norm (WeightNorm.flatten [[3]; [4]]) <> 0 /\
   exists w,
     WeightNorm.output_channel (wn_conv_transpose reset_parameters 1 2 1 1 0 0)
       (WeightNorm.compute_weight [5] [[[3]; [4]]]) 0 = Some w /\
     WeightNorm.norm w <> 5).
Proof.
  split.
  - split.
    + change (WeightNorm.flatten [[1]]) with [1]. rewrite norm_singleton.
      rewrite Rabs_R1. lra.
    + exists (WeightNorm.compute_channel (-1) [1]). split; [reflexivity |].
      rewrite compute_channel_norm by (rewrite norm_singleton, Rabs_R1; lra).
      rewrite Rabs_left by lra. lra.
  - split.
    + change (WeightNorm.flatten [[3]; [4]]) with [3; 4]. rewrite norm_3_4. lra.
    + exists [3 * (5 / WeightNorm.norm [3; 4])]. split; [reflexivity |].
      rewrite norm_singleton, norm_3_4.
      replace (3 * (5 / 5)) with 3 by field.
      rewrite Rabs_pos_eq by lra. lra.
Qed.

(** C8, amended: for every weight-normalised layer, every magnitude tensor
    and every direction tensor, and every index c along dimension 0 of the
    weight whose direction slice has a nonzero norm, the effective weight
    has a slice c along dimension 0, and the norm of that slice is the
    absolute value of the stored magnitude c (hence the magnitude itself
    when that is not negative), whatever the norm of the direction.  For a
    [WNConv1d] that slice is the weight of output channel c; for a
    [WNConvTranspose1d] it is the weight of input channel c. *)
Theorem weight_norm_effective_norm (conv transposed : ConvNd) (weight_g : list R)
  (weight_v : WeightNorm.tensor) (c : nat) (g : R) (s : WeightNorm.slice) :
  nth_error weight_g c = Some g ->
  nth_error weight_v c = Some s ->
  WeightNorm.norm (WeightNorm.flatten s) <> 0 ->
  exists w,
    WeightNorm.output_channel (Conv1d conv)
      (WeightNorm.compute_weight weight_g weight_v) c = Some w /\
    WeightNorm.input_channel (ConvTranspose1d transposed)
      (WeightNorm.compute_weight weight_g weight_v) c = Some w /\
    WeightNorm.norm w = Rabs g.
Proof.
  intros Hg Hs Hn.
  exists (WeightNorm.compute_channel g (WeightNorm.flatten s)).
  cbn [WeightNorm.output_channel WeightNorm.input_channel].
  rewrite (compute_weight_dim0 _ _ _ _ _ Hg Hs).
  repeat split. apply compute_channel_norm. exact Hn.
Qed.

Lemma weight_norm_effective_norm_witness :
  exists w,
    WeightNorm.output_channel (wn_conv reset_parameters 1 2 2 1 0 1)
      (WeightNorm.compute_weight [2; -5] [[[1; 0]]; [[3; 4]]]) 1 = Some w /\
    WeightNorm.input_channel (wn_conv_transpose reset_parameters 2 1 2 1 0 0)
      (WeightNorm.compute_weight [2; -5] [[[1; 0]]; [[3; 4]]]) 1 = Some w /\
    WeightNorm.norm w = Rabs (-5).
Proof.
  apply (weight_norm_effective_norm _ _ [2; -5] [[[1; 0]]; [[3; 4]]] 1 (-5)
           [[3; 4]]).
  - reflexivity.
  - reflexivity.
  - change (WeightNorm.flatten [[3; 4]]) with [3; 4]. rewrite norm_3_4. lra.
Defined.

(* ===================================================================== *)
(** * ResnetBlock: when the forward pass returns *)
(* ===================================================================== *)

#[local] Open Scope Z_scope.

Lemma conv1d_rank (c : ConvNd) (x s : Shape.t) :
  Shape.conv1d c x = Ok s -> rank3 x.
Proof.
  destruct x as [| b [| ch [| w [| z x]]]]; try discriminate.
  intros _; exists b, ch, w; reflexivity.
Qed.

Lemma pad_reflect_rank (l r : Z) (x s : Shape.t) :
  Shape.pad_reflect l r x = Ok s -> rank3 x.
Proof.
  destruct x as [| b [| ch [| w [| z x]]]]; try discriminate.
  intros _; exists b, ch, w; reflexivity.
Qed.

(** What a successful convolution says about its input. *)
Lemma conv1d_Ok_inv (c : ConvNd) (b ch w : Z) (s : Shape.t) :
  Shape.conv1d c [b; ch; w] = Ok s ->
  ch = in_channels c /\
  dilation c * (kernel_size c - 1) + 1 <= w + 2 * padding c /\
  s = [b; out_channels c;
       (w + 2 * padding c - (dilation c * (kernel_size c - 1) + 1)) / stride c + 1].
Proof.
  unfold Shape.conv1d.
  destruct (Z.eqb_spec ch (in_channels c)); cbn [negb]; [| discriminate].
  destruct (padding c <? 0); [discriminate |].
  destruct (stride c <=? 0); [discriminate |].
  destruct (dilation c <=? 0); [discriminate |].
  destruct (Z.ltb_spec (w + 2 * padding c) (dilation c * (kernel_size c - 1) + 1));
    [discriminate |].
  intros [= <-]. repeat split; assumption.
Qed.

Lemma pad_reflect_Ok_inv (p b c w : Z) (s : Shape.t) :
  Shape.pad_reflect p p [b; c; w] = Ok s -> p < w /\ s = [b; c; w + p + p].
Proof.
  unfold Shape.pad_reflect.
  destruct (Z.ltb_spec p w); cbn [andb negb]; [| discriminate].
  destruct (w + p + p <? 1); [discriminate |].
  intros [= <-]. split; [assumption | reflexivity].
Qed.

Lemma resnet_block_Ok_inv (w0 : init) (dim d : Z) (x s : Shape.t) :
  1 <= d ->
  ResnetBlock.forward (resnet_block w0 dim d) x = Ok s ->
  (exists b w, x = [b; dim; w] /\ d < w) /\ s = x.
Proof.
  intros Hd H. pose proof H as H0. unfold ResnetBlock.forward in H.
  apply bind_Ok_inv in H. destruct H as [a [Ha H]].
  apply bind_Ok_inv in H. destruct H as [u [Hu _]].
  cbn [ResnetBlock.shortcut resnet_block Layer_forward wn_conv torch.conv1d
       Shape.ops] in Ha.
  destruct (conv1d_rank _ _ _ Ha) as (b & c & w & ->).
  apply conv1d_Ok_inv in Ha. cbn in Ha. destruct Ha as (-> & Hw & ->).
  unfold Sequential_forward in Hu.
  cbn [ResnetBlock.block resnet_block foldM Layer_forward torch.leaky_relu
       torch.pad_reflect Shape.ops bind] in Hu.
  apply bind_Ok_inv in Hu. destruct Hu as [v [Hv _]].
  apply pad_reflect_Ok_inv in Hv. destruct Hv as [Hlt _].
  rewrite resnet_block_size in H0 by lia. injection H0 as <-.
  split; [exists b, w; split; [reflexivity | assumption] | reflexivity].
Qed.

(** X1: with positive [dim] and [dilation], the forward pass of
    [ResnetBlock(dim, dilation)] on an input [batch, channels, L] returns
    exactly when [channels = dim] and [L > dilation], and then returns the
    shape of its input; on every other three-dimensional input it raises. *)
Theorem ResnetBlock_forward_returns (dim dilation batch channels len_ : Z)
  (s : Shape.t) :
  1 <= dim -> 1 <= dilation ->
  (r <- ResnetBlock.init dim dilation ;;
   ResnetBlock.forward r [batch; channels; len_]) = Ok s <->
  channels = dim /\ dilation < len_ /\ s = [batch; channels; len_].
Proof.
  intros _ Hd. rewrite ResnetBlock_init_eq. cbn [bind]. split.
  - intros H. apply resnet_block_Ok_inv in H; [| exact Hd].
    destruct H as [(b & w & E & Hlt) ->]. injection E as -> -> ->.
    repeat split; assumption.
  - intros (-> & Hlt & ->). apply resnet_block_size; assumption.
Qed.

Lemma ResnetBlock_forward_returns_witness :
  (r <- ResnetBlock.init 128 27 ;; ResnetBlock.forward r [4; 128; 28])
  = Ok [4; 128; 28].
Proof.
  apply (ResnetBlock_forward_returns 128 27 4 128 28 [4; 128; 28]); try lia.
  repeat split; lia.
Defined.

(* ===================================================================== *)
(** * Generator: when the forward pass returns *)
(* ===================================================================== *)

Lemma residual_blocks_Ok_inv (w0 : init) (dim b len_ : Z) (js : list Z)
  (s : Shape.t) :
  (forall j, In j js -> 0 <= j) ->
  foldM (fun x m => Submodule_forward m x)
        (map (fun j => Block (resnet_block w0 dim (3 ^ j))) js) [b; dim; len_]
  = Ok s ->
  forall j, In j js -> 3 ^ j < len_.
Proof.
  induction js as [| j0 js IH]; intros Hjs H j Hj; [destruct Hj |].
  cbn [map foldM Submodule_forward] in H.
  apply bind_Ok_inv in H. destruct H as [s0 [H0 H]].
  assert (Hpos : 1 <= 3 ^ j0).
  { assert (0 < 3 ^ j0) by (apply Z.pow_pos_nonneg; [lia | apply Hjs; left; reflexivity]).
    lia. }
  apply resnet_block_Ok_inv in H0; [| exact Hpos].
  destruct H0 as [(b' & w' & E & Hlt) ->]. injection E as <- <-.
  destruct Hj as [<- | Hj]; [exact Hlt |].
  apply (IH (fun j' Hj' => Hjs j' (or_intror Hj')) H j Hj).
Qed.

Lemma range_last (n : Z) : 1 <= n -> In (n - 1) (range n).
Proof.
  intros Hn. unfold range. apply in_map_iff.
  exists (Z.to_nat (n - 1)). split; [lia |]. apply in_seq. lia.
Qed.

Lemma generator_layers_Ok_inv (w0 : init) (input_size ngf n : Z) (x s : Shape.t) :
  foldM (fun x m => Submodule_forward m x) (generator_layers w0 input_size ngf n) x
  = Ok s ->
  exists b frames,
    x = [b; input_size; frames] /\ 4 <= frames /\
    (n <= 0 \/ 3 ^ (n - 1) < 8 * frames).
Proof.
  unfold generator_layers. rewrite foldM_app. intros H.
  apply bind_Ok_inv in H. destruct H as [s1 [H1 H]].
  cbn [foldM Submodule_forward Layer_forward wn_conv torch.pad_reflect
       torch.conv1d Shape.ops] in H1.
  apply bind_Ok_inv in H1. destruct H1 as [p [Hp H1]].
  destruct (pad_reflect_rank _ _ _ _ Hp) as (b & c & frames & ->).
  apply pad_reflect_Ok_inv in Hp. destruct Hp as [Hf ->].
  apply bind_Ok_inv in H1. destruct H1 as [q [Hq H1]].
  apply conv1d_Ok_inv in Hq.
  cbn [in_channels out_channels kernel_size stride padding dilation] in Hq.
  destruct Hq as (-> & _ & Eq).
  replace ((frames + 3 + 3 + 2 * 0 - (1 * (7 - 1) + 1)) / 1 + 1) with frames in Eq
    by (rewrite Z.div_1_r; lia).
  subst q. assert (s1 = [b; 16 * ngf; frames]) as -> by congruence. clear H1.
  exists b, frames. split; [reflexivity |]. split; [lia |].
  destruct (Z_le_gt_dec n 0) as [Hn | Hn]; [left; exact Hn | right].
  rewrite foldM_app in H. apply bind_Ok_inv in H. destruct H as [s2 [H2 _]].
  unfold generator_stage in H2. rewrite foldM_app in H2.
  apply bind_Ok_inv in H2. destruct H2 as [s3 [H3 H2]].
  cbn [foldM Submodule_forward Layer_forward wn_conv_transpose bind
       torch.conv_transpose1d torch.leaky_relu Shape.ops] in H3.
  rewrite conv_transpose1d_size in H3 by lia. cbn [bind] in H3.
  assert (s3 = [b; 16 * ngf / 2; frames * 8]) as -> by congruence.
  replace (8 * frames) with (frames * 8) by lia.
  apply (residual_blocks_Ok_inv _ _ _ _ _ _
           (fun j Hj => proj1 (range_bounds n j Hj)) H2).
  apply range_last. lia.
Qed.

(** X2: with positive [input_size] and [ngf], the forward pass of the
    constructed generator on an input [batch, channels, F] returns exactly
    when [channels = input_size], F >= 4 and every residual dilation is
    below the length 8 F of the first stage
    ([n_residual_layers <= 0] or 3^(n_residual_layers - 1) < 8 F); it then
    returns [batch, 1, 256 F].  On every other three-dimensional input it
    raises. *)
Theorem Generator_forward_returns (input_size ngf n_residual_layers : Z)
  (batch channels frames : Z) (s : Shape.t) :
  1 <= input_size -> 1 <= ngf ->
  (g <- Generator.init input_size ngf n_residual_layers ;;
   Generator.forward g [batch; channels; frames]) = Ok s <->
  channels = input_size /\ 4 <= frames /\
  (n_residual_layers <= 0 \/ 3 ^ (n_residual_layers - 1) < 8 * frames) /\
  s = [batch; 1; frames * 256].
Proof.
  intros _ _. rewrite Generator_init_eq. cbn [bind]. unfold Generator.forward.
  cbn [Generator.model]. split.
  - intros H.
    destruct (generator_layers_Ok_inv _ _ _ _ _ _ H) as (b & f & E & Hf & Hn).
    injection E as -> -> ->.
    rewrite generator_layers_size in H by assumption. injection H as <-.
    repeat split; assumption.
  - intros (-> & Hf & Hn & ->). apply generator_layers_size; assumption.
Qed.

Lemma Generator_forward_returns_witness :
  (g <- Generator.init 80 32 3 ;; Generator.forward g [2; 80; 4]) = Ok [2; 1; 1024].
Proof.
  apply (Generator_forward_returns 80 32 3 2 80 4 [2; 1; 1024]); try lia.
  repeat split; lia.
Defined.

(* ===================================================================== *)
(** * Audio2Mel: any configuration, and when the forward pass returns *)
(* ===================================================================== *)

Lemma pad_reflect_size_signed (l r b c w : Z) :
  l < w -> r < w -> 1 <= w + l + r ->
  Shape.pad_reflect l r [b; c; w] = Ok [b; c; w + l + r].
Proof.
  intros Hl Hr Hw. unfold Shape.pad_reflect. settle_tests. reflexivity.
Qed.

(** The frame count for any configuration. *)
Lemma audio2mel_size
  (n_fft hop_length win_length sampling_rate n_mel_channels : Z)
  (mel_fmin : Q) (mel_fmax : option Q) (batch len_ : Z) :
  0 < hop_length <= n_fft -> 0 < win_length <= n_fft ->
  (n_fft - hop_length) / 2 < len_ ->
  n_fft <= len_ + 2 * ((n_fft - hop_length) / 2) ->
  Audio2Mel.forward
    (Audio2Mel.init n_fft hop_length win_length sampling_rate n_mel_channels
       mel_fmin mel_fmax)
    [batch; 1; len_]
  = Ok [batch; n_mel_channels;
        1 + (len_ + 2 * ((n_fft - hop_length) / 2) - n_fft) / hop_length].
Proof.
  intros Hh Hw Hp Hn.
  unfold Audio2Mel.forward, Audio2Mel.init.
  cbn [Audio2Mel.n_fft Audio2Mel.hop_length Audio2Mel.win_length
       Audio2Mel.window Audio2Mel.mel_basis
       torch.pad_reflect torch.squeeze torch.stft torch.unbind_last torch.add
       torch.pow torch.sqrt torch.matmul torch.log10 torch.clamp_min
       torch.hann_window torch.librosa_mel_fn Shape.ops].
  set (p := (n_fft - hop_length) / 2) in *.
  rewrite pad_reflect_size_signed by lia. cbn [bind].
  change (Shape.squeeze 1 [batch; 1; len_ + p + p])
    with (Ok (A:=Shape.t) [batch; len_ + p + p]).
  cbn [bind]. unfold Shape.stft, Shape.stft_check.
  settle_tests.
  unfold Shape.stft_frames, Shape.unbind_last.
  cbn [rev app Z.to_nat bind].
  change (Pos.to_nat 2) with 2%nat. cbn [repeat].
  rewrite add_same_size. cbn [bind Shape.matmul].
  replace (1 + n_fft / 2) with (n_fft / 2 + 1) by lia.
  rewrite Z.eqb_refl.
  cbn [bind]. replace (len_ + p + p) with (len_ + 2 * p) by lia. reflexivity.
Qed.

(** X4: for every configuration with 0 < hop_length <= n_fft and
    0 < win_length <= n_fft, and every waveform [batch, 1, L] that is
    longer than the pad p = (n_fft - hop_length) // 2 and whose padded
    length L + 2p is at least n_fft, the forward pass returns
    [batch, n_mel_channels, 1 + (L + 2p - n_fft) // hop_length]. *)
Theorem Audio2Mel_forward_size
  (n_fft hop_length win_length sampling_rate n_mel_channels : Z)
  (mel_fmin : Q) (mel_fmax : option Q) (batch len_ : Z) :
  1 <= sampling_rate -> 1 <= n_mel_channels ->
  0 < hop_length <= n_fft -> 0 < win_length <= n_fft ->
  (n_fft - hop_length) / 2 < len_ ->
  n_fft <= len_ + 2 * ((n_fft - hop_length) / 2) ->
  Audio2Mel.forward
    (Audio2Mel.init n_fft hop_length win_length sampling_rate n_mel_channels
       mel_fmin mel_fmax)
    [batch; 1; len_]
  = Ok [batch; n_mel_channels;
        1 + (len_ + 2 * ((n_fft - hop_length) / 2) - n_fft) / hop_length].
Proof.
  intros _ _. apply audio2mel_size.
Qed.

Lemma Audio2Mel_forward_size_witness :
  Audio2Mel.forward (Audio2Mel.init 512 128 400 16000 40 0 None) [3; 1; 1000]
  = Ok [3; 40; 1 + (1000 + 2 * ((512 - 128) / 2) - 512) / 128].
Proof.
  apply (Audio2Mel_forward_size 512 128 400 16000 40 0 None 3 1000);
    try lia; vm_compute; intuition discriminate.
Defined.

Lemma audio2mel_default_size (batch len_ : Z) :
  384 < len_ ->
  Audio2Mel.forward Audio2Mel.default [batch; 1; len_] = Ok [batch; 80; len_ / 256].
Proof.
  intros Hl. unfold Audio2Mel.default.
  rewrite audio2mel_size by (change ((1024 - 256) / 2) with 384; lia).
  change ((1024 - 256) / 2) with 384.
  do 4 f_equal. Z.div_mod_to_equations. lia.
Qed.

Lemma stft_rank (x w s : Shape.t) (n_fft hop win : Z) :
  Shape.stft x n_fft hop win w = Ok s -> List.length x = 1%nat \/ List.length x = 2%nat.
Proof.
  destruct x as [| a [| b [| c x]]]; try discriminate; cbn; auto.
Qed.

(** X5: with the default configuration the forward pass on an input
    [batch, channels, L] returns exactly when [channels = 1] and L > 384,
    and then returns [batch, 80, L // 256]; a waveform with more than one
    channel is not squeezed and is rejected by the STFT. *)
Theorem Audio2Mel_forward_returns (batch channels len_ : Z) (s : Shape.t) :
  Audio2Mel.forward Audio2Mel.default [batch; channels; len_] = Ok s <->
  channels = 1 /\ 384 < len_ /\ s = [batch; 80; len_ / 256].
Proof.
  split.
  - intros H. pose proof H as H0. unfold Audio2Mel.forward in H.
    apply bind_Ok_inv in H. destruct H as [padded [Hp H]].
    apply bind_Ok_inv in H. destruct H as [squeezed [Hs H]].
    apply bind_Ok_inv in H. destruct H as [fft [Hf _]].
    cbn [torch.pad_reflect torch.squeeze torch.stft Shape.ops] in Hp, Hs, Hf.
    change ((Audio2Mel.n_fft Audio2Mel.default
             - Audio2Mel.hop_length Audio2Mel.default) / 2) with 384 in Hp.
    apply pad_reflect_Ok_inv in Hp. destruct Hp as [Hlt ->].
    assert (Hc : channels = 1).
    { destruct (Z.eqb_spec channels 1) as [E | E]; [exact E | exfalso].
      change (Shape.squeeze 1 [batch; channels; len_ + 384 + 384])
        with (Ok (A:=Shape.t)
                (batch :: (if channels =? 1 then [len_ + 384 + 384]
                           else [channels; len_ + 384 + 384])))
        in Hs.
      destruct (Z.eqb_spec channels 1); [contradiction |].
      injection Hs as <-. apply stft_rank in Hf. cbn in Hf.
      destruct Hf; discriminate. }
    subst channels. split; [reflexivity |]. split; [exact Hlt |].
    assert (E : Ok s = Ok [batch; 80; len_ / 256])
      by (rewrite <- H0; exact (audio2mel_default_size batch len_ Hlt)).
    congruence.
  - intros (-> & Hlt & ->). apply (audio2mel_default_size batch len_ Hlt).
Qed.

(** X6: the extractor recovers the frame count of the generator's input:
    a spectrogram [batch, input_size, F] that the generator accepts gives a
    waveform on which the default [Audio2Mel] returns [batch, 80, F]. *)
Theorem Audio2Mel_of_Generator (input_size ngf n_residual_layers batch frames : Z) :
  1 <= input_size -> 1 <= ngf -> 4 <= frames ->
  (n_residual_layers <= 0 \/ 3 ^ (n_residual_layers - 1) < 8 * frames) ->
  (g <- Generator.init input_size ngf n_residual_layers ;;
   wav <- Generator.forward g [batch; input_size; frames] ;;
   Audio2Mel.forward Audio2Mel.default wav)
  = Ok [batch; 80; frames].
Proof.
  intros _ _ Hf Hn. rewrite Generator_init_eq. cbn [bind].
  unfold Generator.forward. cbn [Generator.model].
  rewrite generator_layers_size by assumption. cbn [bind].
  rewrite audio2mel_default_size by lia.
  rewrite Z.div_mul by lia. reflexivity.
Qed.

Lemma Audio2Mel_of_Generator_witness :
  (g <- Generator.init 80 32 3 ;;
   wav <- Generator.forward g [16; 80; 32] ;;
   Audio2Mel.forward Audio2Mel.default wav)
  = Ok [16; 80; 32].
Proof.
  apply (Audio2Mel_of_Generator 80 32 3 16 32); try lia.
Defined.

(* ===================================================================== *)
(** * NLayerDiscriminator: the constructor's edge cases *)
(* ===================================================================== *)

(** X7: with [n_layers <= 0] the loop over [range(1, n_layers + 1)] never
    runs, [nf_prev] is never bound, and the constructor raises
    [UnboundLocalError] when it builds the layer after the loop. *)
Theorem NLayerDiscriminator_init_no_layers (ndf n_layers downsampling_factor : Z) :
  1 <= ndf -> n_layers <= 0 ->
  NLayerDiscriminator.init ndf n_layers downsampling_factor = Raise UnboundLocalError.
Proof.
  intros _ Hn. unfold NLayerDiscriminator.init.
  rewrite WNConv1d_1. cbn [bind].
  unfold range2. replace (Z.to_nat (n_layers + 1 - 1)) with 0%nat by lia.
  reflexivity.
Qed.

Lemma NLayerDiscriminator_init_no_layers_witness :
  NLayerDiscriminator.init 16 0 4 = Raise UnboundLocalError.
Proof. apply (NLayerDiscriminator_init_no_layers 16 0 4); lia. Defined.

Lemma range2_cons (a b : Z) :
  a < b -> range2 a b = a :: range2 (a + 1) b.
Proof.
  intros H. unfold range2.
  replace (Z.to_nat (b - a)) with (S (Z.to_nat (b - (a + 1)))) by lia.
  cbn [seq map]. f_equal; [lia |].
  rewrite <- seq_shift, map_map. apply map_ext. intros i. lia.
Qed.

(** X8: with at least one layer and [1 <= ndf <= 3] the first strided
    convolution is built with [groups = ndf // 4 = 0], and the constructor
    raises [ZeroDivisionError] in the divisibility check of [nn.Conv1d]. *)
Theorem NLayerDiscriminator_init_small_ndf (ndf n_layers downsampling_factor : Z) :
  1 <= n_layers -> 1 <= ndf <= 3 ->
  NLayerDiscriminator.init ndf n_layers downsampling_factor = Raise ZeroDivisionError.
Proof.
  intros Hn Hndf. unfold NLayerDiscriminator.init.
  rewrite WNConv1d_1. cbn [bind].
  rewrite range2_cons by lia. cbn [foldM].
  unfold NLayerDiscriminator.downsample_stage at 1.
  unfold WNConv1d, Conv1d_init, check_groups.
  replace (ndf / 4) with 0 by (Z.div_mod_to_equations; lia).
  reflexivity.
Qed.

Lemma NLayerDiscriminator_init_small_ndf_witness :
  NLayerDiscriminator.init 2 4 4 = Raise ZeroDivisionError.
Proof. apply (NLayerDiscriminator_init_small_ndf 2 4 4); lia. Defined.

(* ===================================================================== *)
(** * NLayerDiscriminator: the bottom-up stack *)
(* ===================================================================== *)

(** X9: the bottom-up stack of [NLayerDiscriminator(16, 4, 4)] on a
    waveform [batch, 1, L] with L >= 8 leaves seven feature maps; each of
    the four strided stages divides the length by four, rounding up, and
    the last three maps have length ceil(L / 256). *)
Theorem NLayerDiscriminator_bottom_up_sizes (batch len_ : Z) :
  8 <= len_ ->
  (d <- NLayerDiscriminator.init 16 4 4 ;;
   st <- foldM NLayerDiscriminator.bottom_up_step (NLayerDiscriminator.model d)
           ([batch; 1; len_], []) ;;
   Ok (snd st))
  = Ok [[batch; 16; len_];
        [batch; 64; ceil_div len_ 4];
        [batch; 256; ceil_div len_ 16];
        [batch; 1024; ceil_div len_ 64];
        [batch; 1024; ceil_div len_ 256];
        [batch; 1024; ceil_div len_ 256];
        [batch; 1; ceil_div len_ 256]].
Proof.
  intros Hl.
  set (r := NLayerDiscriminator.init 16 4 4). vm_compute in r. subst r.
  cbn [bind].
  bottom_up_16_4_4 len_. cbn [bind snd].
  assert (E1 : l1 = ceil_div len_ 4)
    by (subst l1; unfold ceil_div; Z.div_mod_to_equations; lia).
  assert (E2 : l2 = ceil_div len_ 16)
    by (subst l2 l1; unfold ceil_div; Z.div_mod_to_equations; lia).
  assert (E3 : l3 = ceil_div len_ 64)
    by (subst l3 l2 l1; unfold ceil_div; Z.div_mod_to_equations; lia).
  assert (E4 : l4 = ceil_div len_ 256)
    by (subst l4 l3 l2 l1; unfold ceil_div; Z.div_mod_to_equations; lia).
  rewrite E1, E2, E3, E4. reflexivity.
Qed.

Lemma NLayerDiscriminator_bottom_up_sizes_witness :
  (d <- NLayerDiscriminator.init 16 4 4 ;;
   st <- foldM NLayerDiscriminator.bottom_up_step (NLayerDiscriminator.model d)
           ([2; 1; 1000], []) ;;
   Ok (snd st))
  = Ok [[2; 16; 1000]; [2; 64; ceil_div 1000 4]; [2; 256; ceil_div 1000 16];
        [2; 1024; ceil_div 1000 64]; [2; 1024; ceil_div 1000 256];
        [2; 1024; ceil_div 1000 256]; [2; 1; ceil_div 1000 256]].
Proof. apply (NLayerDiscriminator_bottom_up_sizes 2 1000). lia. Defined.

(* ===================================================================== *)
(** * The discriminators never return a feature map *)
(* ===================================================================== *)

Lemma forward_lateral_conflict (is_c : Shape.t -> Z -> bool)
  (d : NLayerDiscriminator.t) (x : Shape.t) (r : list Shape.t) :
  lateral_conflict d ->
  NLayerDiscriminator.forward (H0 := Shape.truth is_c) d x <> Ok r.
Proof.
  intros (c2 & c3 & E2 & E3 & H2 & H3) H.
  unfold NLayerDiscriminator.forward in H.
  apply bind_Ok_inv in H. destruct H as [[x' bottom_up] [_ H]].
  repeat (apply bind_Ok_inv in H; destruct H as [? [? H]]).
  rewrite E2, E3 in *.
  cbn [Layer_forward torch.conv1d Shape.ops] in *.
  repeat match goal with
  | Ha : getitem ?l 2 = Ok ?a, Hb : getitem ?l 2 = Ok ?b |- _ =>
      assert (a = b) by congruence; subst a; clear Ha
  end.
  match goal with
  | Ha : Shape.conv1d c2 ?a = Ok _, Hb : Shape.conv1d c3 ?a = Ok _ |- _ =>
      destruct (conv1d_rank _ _ _ Ha) as (b0 & ch & w & ->);
      apply conv1d_Ok_inv in Ha; apply conv1d_Ok_inv in Hb;
      destruct Ha as [Ea _]; destruct Hb as [Eb _]; lia
  end.
Qed.

Lemma init_lateral_conflict (ndf n_layers downsampling_factor : Z)
  (d : NLayerDiscriminator.t) :
  NLayerDiscriminator.init ndf n_layers downsampling_factor = Ok d ->
  lateral_conflict d.
Proof.
  unfold NLayerDiscriminator.init. intros H.
  apply bind_Ok_inv in H. destruct H as [c0 [_ H]].
  apply bind_Ok_inv in H. destruct H as [[[model nf] nf_prev] [_ H]].
  apply bind_Ok_inv in H. destruct H as [nf_prev' [_ H]].
  repeat (apply bind_Ok_inv in H; destruct H as [? [? H]]).
  repeat match goal with
  | E : WNConv1d _ _ _ _ _ _ 1 = Ok _ |- _ =>
      rewrite WNConv1d_1 in E; injection E as <-
  end.
  injection H as <-.
  unfold lateral_conflict. cbn [NLayerDiscriminator.latlayer2
                                  NLayerDiscriminator.latlayer3].
  eexists. eexists. repeat split; reflexivity.
Qed.

(** X10: [NLayerDiscriminator.forward] never returns: for every choice
    of the constructor arguments for which the constructor succeeds and
    every input, of any shape and with any values, the call raises.  When
    nothing fails earlier, the lateral layers [latlayer2] (256 input
    channels) and [latlayer3] (64 input channels) are both applied to
    [bottom_up[2]]. *)
Theorem NLayerDiscriminator_forward_never_returns
  (is_c : Shape.t -> Z -> bool) (ndf n_layers downsampling_factor : Z)
  (d : NLayerDiscriminator.t) (x : Shape.t) :
  NLayerDiscriminator.init ndf n_layers downsampling_factor = Ok d ->
  exists e, NLayerDiscriminator.forward (H0 := Shape.truth is_c) d x = Raise e.
Proof.
  intros Hd.
  destruct (NLayerDiscriminator.forward (H0 := Shape.truth is_c) d x)
    as [r | e] eqn:H; [exfalso | exists e; reflexivity].
  apply (forward_lateral_conflict is_c d x r); [| exact H].
  apply (init_lateral_conflict _ _ _ _ Hd).
Qed.

Lemma NLayerDiscriminator_forward_never_returns_witness :
  exists d e,
    NLayerDiscriminator.init 16 4 4 = Ok d /\
    NLayerDiscriminator.forward (H0 := Shape.truth (fun _ _ => true)) d [1; 1; 256]
    = Raise e.
Proof.
  eexists.
  assert (Hd : NLayerDiscriminator.init 16 4 4 = Ok ?[d])
    by (vm_compute; reflexivity).
  destruct (NLayerDiscriminator_forward_never_returns (fun _ _ => true) 16 4 4
              _ [1; 1; 256] Hd) as [e He].
  exists e. split; [exact Hd | exact He].
Defined.

Lemma weights_init_lateral_conflict (d d' : NLayerDiscriminator.t) :
  NLayerDiscriminator.apply_weights_init d = Ok d' ->
  lateral_conflict d -> lateral_conflict d'.
Proof.
  intros H (c2 & c3 & E2 & E3 & H2 & H3).
  unfold NLayerDiscriminator.apply_weights_init in H.
  repeat (apply bind_Ok_inv in H; destruct H as [? [? H]]).
  injection H as <-.
  rewrite E2, E3 in *.
  repeat match goal with
  | E : weights_init (Conv1d _) = Ok _ |- _ => injection E as <-
  end.
  unfold lateral_conflict.
  cbn [NLayerDiscriminator.latlayer2 NLayerDiscriminator.latlayer3].
  eexists. eexists. repeat split; cbn [in_channels set_params]; assumption.
Qed.

Lemma dict_set_Forall {A : Type} (P : A -> Prop) (d : list (string * A))
  (k : string) (v : A) :
  Forall (fun kv => P (snd kv)) d -> P v ->
  Forall (fun kv => P (snd kv)) (dict_set d k v).
Proof.
  intros Hd Hv. induction Hd as [| [k' v'] d Hkv Hd IH]; cbn [dict_set].
  - constructor; [exact Hv | constructor].
  - destruct (String.eqb k' k); constructor; auto.
Qed.

Lemma dict_set_not_nil {A : Type} (d : list (string * A)) (k : string) (v : A) :
  dict_set d k v <> [].
Proof.
  destruct d as [| [k' v'] d]; cbn [dict_set]; [discriminate |].
  destruct (String.eqb k' k); discriminate.
Qed.

Lemma mapM_length {A B : Type} (f : A -> result B) (xs : list A) (ys : list B) :
  mapM f xs = Ok ys -> List.length ys = List.length xs.
Proof.
  revert ys; induction xs as [| x xs IH]; intros ys H; cbn [mapM] in H.
  - injection H as <-; reflexivity.
  - apply bind_Ok_inv in H. destruct H as [y [_ H]].
    apply bind_Ok_inv in H. destruct H as [ys' [Hys H]].
    injection H as <-. cbn [List.length]. f_equal. apply IH; exact Hys.
Qed.

Lemma mapM_Forall {A B : Type} (f : A -> result B) (P : A -> Prop) (Q : B -> Prop)
  (xs : list A) (ys : list B) :
  (forall x y, P x -> f x = Ok y -> Q y) ->
  mapM f xs = Ok ys -> Forall P xs -> Forall Q ys.
Proof.
  intros HPQ. revert ys; induction xs as [| x xs IH]; intros ys H HP;
    cbn [mapM] in H.
  - injection H as <-; constructor.
  - apply bind_Ok_inv in H. destruct H as [y [Hy H]].
    apply bind_Ok_inv in H. destruct H as [ys' [Hys H]].
    injection H as <-. inversion HP; subst.
    constructor; [eapply HPQ; eassumption | apply IH; assumption].
Qed.

(** The members that [Discriminator.__init__] builds. *)
Lemma discriminator_members (P : NLayerDiscriminator.t -> Prop)
  (ndf n_layers downsampling_factor : Z) (is_ : list Z)
  (model model' : list (string * NLayerDiscriminator.t)) :
  (forall d, NLayerDiscriminator.init ndf n_layers downsampling_factor = Ok d -> P d) ->
  foldM (fun model i =>
           d <- NLayerDiscriminator.init ndf n_layers downsampling_factor ;;
           Ok (dict_set model ("disc_" ++ str i)%string d))
        is_ model = Ok model' ->
  Forall (fun kv => P (snd kv)) model ->
  Forall (fun kv => P (snd kv)) model' /\ (is_ <> [] -> model' <> []).
Proof.
  intros HPinit.
  revert model; induction is_ as [| i is_ IH]; intros model H HP; cbn [foldM] in H.
  - injection H as <-. split; [exact HP | congruence].
  - apply bind_Ok_inv in H. destruct H as [m1 [H1 H]].
    apply bind_Ok_inv in H1. destruct H1 as [d [Hd H1]]. injection H1 as <-.
    assert (HP1 : Forall (fun kv => P (snd kv))
                    (dict_set model ("disc_" ++ str i)%string d)).
    { apply (dict_set_Forall P); [exact HP | apply (HPinit d Hd)]. }
    destruct (IH _ H HP1) as [HP' Hne]. split; [exact HP' |].
    intros _. destruct is_ as [| i' is_].
    + cbn [foldM] in H. injection H as <-. apply dict_set_not_nil.
    + apply Hne. discriminate.
Qed.

Lemma Discriminator_init_members (num_D ndf n_layers downsampling_factor : Z)
  (d : Discriminator.t) :
  Discriminator.init num_D ndf n_layers downsampling_factor = Ok d ->
  Forall (fun kv => lateral_conflict (snd kv)) (Discriminator.model d) /\
  (1 <= num_D -> Discriminator.model d <> []).
Proof.
  unfold Discriminator.init. intros H.
  apply bind_Ok_inv in H. destruct H as [model [Hm H]].
  apply (discriminator_members lateral_conflict) in Hm;
    [| apply init_lateral_conflict | constructor].
  destruct Hm as [HP Hne].
  unfold Discriminator.apply_weights_init in H.
  cbn [Discriminator.model Discriminator.downsample] in H.
  apply bind_Ok_inv in H. destruct H as [model' [Hm' H]].
  repeat (apply bind_Ok_inv in H; destruct H as [? [? H]]).
  injection H as <-. cbn [Discriminator.model]. split.
  - refine (mapM_Forall _ _ _ _ _ _ Hm' HP).
    intros [k v] [k' v'] Hv Hf. cbn [snd] in *.
    apply bind_Ok_inv in Hf. destruct Hf as [v'' [Hw Hf]].
    injection Hf as _ <-. apply (weights_init_lateral_conflict v v'' Hw Hv).
  - intros Hn. apply mapM_length in Hm'.
    assert (Hr : range num_D <> []).
    { unfold range. destruct (Z.to_nat num_D) eqn:E; [lia | discriminate]. }
    specialize (Hne Hr). destruct model; [congruence |].
    destruct model'; [discriminate | discriminate].
Qed.

(** X11: [Discriminator.forward] returns exactly when the ensemble is empty
    ([num_D <= 0]), and then returns the empty sequence; with at least one
    member it raises on every input, whatever the other constructor
    arguments. *)
Theorem Discriminator_forward_returns (is_c : Shape.t -> Z -> bool)
  (num_D ndf n_layers downsampling_factor : Z) (x : Shape.t)
  (r : list (list Shape.t)) :
  (d <- Discriminator.init num_D ndf n_layers downsampling_factor ;;
   Discriminator.forward (H0 := Shape.truth is_c) d x) = Ok r <->
  num_D <= 0 /\ r = [].
Proof.
  split.
  - intros H. apply bind_Ok_inv in H. destruct H as [d [Hd H]].
    destruct (Discriminator_init_members _ _ _ _ _ Hd) as [HP Hne].
    unfold Discriminator.forward in H.
    destruct (Discriminator.model d) as [| [k disc] rest] eqn:Em.
    + cbn [foldM] in H. injection H as <-. split; [| reflexivity].
      destruct (Z_le_gt_dec num_D 0) as [Hn | Hn]; [exact Hn |].
      exfalso. apply Hne; [lia | reflexivity].
    + exfalso. cbn [foldM] in H.
      apply bind_Ok_inv in H. destruct H as [acc [H1 _]].
      apply bind_Ok_inv in H1. destruct H1 as [r1 [H1 _]].
      inversion HP; subst. cbn [snd] in *.
      apply (forward_lateral_conflict is_c disc x r1); assumption.
  - intros [Hn ->]. unfold Discriminator.init, range.
    replace (Z.to_nat num_D) with 0%nat by lia. reflexivity.
Qed.

(* ===================================================================== *)
(** * NLayerDiscriminator.upsample_add *)
(* ===================================================================== *)

(** X12: [upsample_add(x, y)] returns a map of the shape of [y] whenever
    [x] and [y] are three-dimensional with the same batch and channel
    counts and non-empty lengths, whatever the length of [x]. *)
Theorem upsample_add_size (b c w len_ : Z) :
  1 <= w -> 1 <= len_ ->
  NLayerDiscriminator.upsample_add [b; c; w] [b; c; len_] = Ok [b; c; len_].
Proof.
  intros Hw Hl. unfold NLayerDiscriminator.upsample_add.
  cbn [torch.size torch.upsample torch.add Shape.resize Shape.ops].
  unfold Shape.upsample. change (len [w]) with 1.
  cbn [forallb map andb]. settle_tests.
  rewrite add_same_size. reflexivity.
Qed.

Lemma upsample_add_size_witness :
  NLayerDiscriminator.upsample_add [4; 256; 8] [4; 256; 15] = Ok [4; 256; 15].
Proof. apply (upsample_add_size 4 256 8 15); lia. Defined.

(** X13: [upsample_add(x, y)] raises [ValueError] when [y] is not
    three-dimensional: [_, _, L = y.size()] cannot be unpacked. *)
Theorem upsample_add_rank (x y : Shape.t) :
  List.length y <> 3%nat ->
  NLayerDiscriminator.upsample_add x y
  = Raise (ValueError "wrong number of values to unpack").
Proof.
  intros Hy. unfold NLayerDiscriminator.upsample_add.
  cbn [torch.size Shape.resize].
  destruct y as [| a [| b [| c [| e y]]]]; try reflexivity.
  cbn in Hy. congruence.
Qed.

Lemma upsample_add_rank_witness :
  NLayerDiscriminator.upsample_add [4; 256; 8] [4; 256; 15; 15]
  = Raise (ValueError "wrong number of values to unpack").
Proof. apply (upsample_add_rank [4; 256; 8] [4; 256; 15; 15]). discriminate. Defined.

(* ===================================================================== *)
(** * Generator: the layers of the model *)
(* ===================================================================== *)

Lemma upsampling_channels_app (xs ys : list Submodule) :
  upsampling_channels (xs ++ ys) = upsampling_channels xs ++ upsampling_channels ys.
Proof. apply flat_map_app. Qed.

Lemma upsampling_channels_blocks (w : init) (dim : Z) (js : list Z) :
  upsampling_channels (map (fun j => Block (resnet_block w dim (3 ^ j))) js) = [].
Proof. induction js as [| j js IH]; [reflexivity | exact IH]. Qed.

Lemma upsampling_channels_stage (w : init) (ngf n mult r : Z) :
  upsampling_channels (generator_stage w ngf n mult r)
  = [(mult * ngf, mult * ngf / 2)].
Proof.
  unfold generator_stage.
  rewrite upsampling_channels_app, upsampling_channels_blocks. reflexivity.
Qed.

(** X14: for every [ngf], odd ones included, the transposed convolutions
    of a constructed generator map 16 ngf -> 8 ngf -> 4 ngf -> 2 ngf -> ngf
    channels: each stage halves the channel count exactly and hands the
    next stage the channel count it expects. *)
Theorem Generator_channels (input_size ngf n_residual_layers : Z) (g : Generator.t) :
  Generator.init input_size ngf n_residual_layers = Ok g ->
  upsampling_channels (Generator.model g)
  = [(16 * ngf, 8 * ngf); (8 * ngf, 4 * ngf); (4 * ngf, 2 * ngf); (2 * ngf, ngf)].
Proof.
  rewrite Generator_init_eq. intros [= <-].
  cbn [Generator.model]. unfold generator_layers.
  rewrite !upsampling_channels_app, !upsampling_channels_stage.
  cbn [upsampling_channels flat_map app].
  replace (16 * ngf / 2) with (8 * ngf) by (Z.div_mod_to_equations; lia).
  replace (8 * ngf / 2) with (4 * ngf) by (Z.div_mod_to_equations; lia).
  replace (4 * ngf / 2) with (2 * ngf) by (Z.div_mod_to_equations; lia).
  replace (2 * ngf / 2) with ngf by (Z.div_mod_to_equations; lia).
  reflexivity.
Qed.

Lemma Generator_channels_witness :
  exists g,
    Generator.init 80 33 3 = Ok g /\
    upsampling_channels (Generator.model g)
    = [(16 * 33, 8 * 33); (8 * 33, 4 * 33); (4 * 33, 2 * 33); (2 * 33, 33)].
Proof.
  eexists. split; [apply Generator_init_eq |].
  apply (Generator_channels 80 33 3 _ (Generator_init_eq 80 33 3)).
Defined.

Lemma block_dilations_app (xs ys : list Submodule) :
  block_dilations (xs ++ ys) = block_dilations xs ++ block_dilations ys.
Proof. apply flat_map_app. Qed.

Lemma block_dilations_blocks (w : init) (dim : Z) (js : list Z) :
  block_dilations (map (fun j => Block (resnet_block w dim (3 ^ j))) js)
  = map (fun j => 3 ^ j) js.
Proof.
  induction js as [| j js IH]; [reflexivity |].
  cbn [map]. rewrite <- IH. reflexivity.
Qed.

Lemma block_dilations_stage (w : init) (ngf n mult r : Z) :
  block_dilations (generator_stage w ngf n mult r) = map (fun j => 3 ^ j) (range n).
Proof.
  unfold generator_stage.
  rewrite block_dilations_app, block_dilations_blocks. reflexivity.
Qed.

(** X15: a constructed generator has, after each of its four transposed
    convolutions, [n_residual_layers] residual blocks with the dilations
    3^0, 3^1, ..., 3^(n_residual_layers - 1), in this order, and none when
    [n_residual_layers <= 0]. *)
Theorem Generator_block_dilations (input_size ngf n_residual_layers : Z)
  (g : Generator.t) :
  Generator.init input_size ngf n_residual_layers = Ok g ->
  block_dilations (Generator.model g)
  = List.concat (repeat (map (fun j => 3 ^ j) (range n_residual_layers)) 4).
Proof.
  rewrite Generator_init_eq. intros [= <-].
  cbn [Generator.model]. unfold generator_layers.
  rewrite !block_dilations_app, !block_dilations_stage.
  cbn [block_dilations flat_map repeat List.concat app]. rewrite !app_nil_r.
  reflexivity.
Qed.

Lemma Generator_block_dilations_witness :
  exists g,
    Generator.init 80 32 3 = Ok g /\
    block_dilations (Generator.model g) = [1; 3; 9; 1; 3; 9; 1; 3; 9; 1; 3; 9].
Proof.
  eexists. split; [apply Generator_init_eq |].
  apply (Generator_block_dilations 80 32 3 _ (Generator_init_eq 80 32 3)).
Defined.

(* ===================================================================== *)
(** * What weights_init leaves behind in a discriminator *)
(* ===================================================================== *)

Lemma weights_init_redraws (l l' : Layer) :
  weights_init l = Ok l' ->
  Forall default_bias (layer_convs l) -> Forall redrawn (layer_convs l').
Proof.
  destruct l; cbn; intros [= <-] H; cbn [layer_convs]; try constructor.
  - inversion H; subst. split; [reflexivity | assumption].
  - constructor.
  - inversion H; subst. split; [reflexivity | assumption].
  - constructor.
Qed.

Lemma weights_init_redraws_all (ls ls' : list Layer) :
  mapM weights_init ls = Ok ls' ->
  Forall default_bias (flat_map layer_convs ls) ->
  Forall redrawn (flat_map layer_convs ls').
Proof.
  revert ls'; induction ls as [| l ls IH]; intros ls' H HP; cbn [mapM] in H.
  - injection H as <-; constructor.
  - apply bind_Ok_inv in H. destruct H as [l' [Hl H]].
    apply bind_Ok_inv in H. destruct H as [ls'' [Hls H]].
    injection H as <-. cbn [flat_map] in *.
    apply Forall_app in HP. destruct HP as [HP1 HP2].
    apply Forall_app. split.
    + apply (weights_init_redraws l l' Hl HP1).
    + apply (IH ls'' Hls HP2).
Qed.

Lemma submodule_weights_init_redraws (m m' : Submodule) :
  Submodule_apply_weights_init m = Ok m' ->
  Forall default_bias (submodule_convs m) -> Forall redrawn (submodule_convs m').
Proof.
  destruct m as [l | ls | r]; cbn [Submodule_apply_weights_init]; intros H HP.
  - apply bind_Ok_inv in H. destruct H as [l' [Hl H]]. injection H as <-.
    apply (weights_init_redraws l l' Hl HP).
  - apply bind_Ok_inv in H. destruct H as [ls' [Hls H]].
    apply bind_Ok_inv in H. destruct H as [u [_ H]]. injection H as <-.
    apply (weights_init_redraws_all ls ls' Hls HP).
  - apply bind_Ok_inv in H. destruct H as [r' [Hr H]]. injection H as <-.
    unfold ResnetBlock.apply_weights_init in Hr.
    apply bind_Ok_inv in Hr. destruct Hr as [b' [Hb Hr]].
    apply bind_Ok_inv in Hr. destruct Hr as [u [_ Hr]].
    apply bind_Ok_inv in Hr. destruct Hr as [s' [Hs Hr]].
    apply bind_Ok_inv in Hr. destruct Hr as [u' [_ Hr]]. injection Hr as <-.
    cbn [submodule_convs ResnetBlock.block ResnetBlock.shortcut] in *.
    apply Forall_app in HP. destruct HP as [HP1 HP2].
    apply Forall_app. split.
    + apply (weights_init_redraws_all _ _ Hb HP1).
    + apply (weights_init_redraws _ _ Hs HP2).
Qed.

Lemma WNConv1d_default_bias (in_ch out_ch k s p d g : Z) (l : Layer) :
  WNConv1d in_ch out_ch k s p d g = Ok l -> Forall default_bias (layer_convs l).
Proof.
  unfold WNConv1d, Conv1d_init. intros H.
  apply bind_Ok_inv in H. destruct H as [m [Hm H]].
  apply bind_Ok_inv in Hm. destruct Hm as [u [_ Hm]]. injection Hm as <-.
  cbn in H. injection H as <-. constructor; [reflexivity | constructor].
Qed.

Lemma WNConvTranspose1d_default_bias (in_ch out_ch k s p op : Z) (l : Layer) :
  WNConvTranspose1d in_ch out_ch k s p op = Ok l ->
  Forall default_bias (layer_convs l).
Proof.
  rewrite WNConvTranspose1d_1. intros [= <-].
  constructor; [reflexivity | constructor].
Qed.

Lemma Conv1d_init_default_bias (in_ch out_ch k s p d g : Z) (l : Layer) :
  Conv1d_init in_ch out_ch k s p d g = Ok l -> Forall default_bias (layer_convs l).
Proof.
  unfold Conv1d_init. intros H.
  apply bind_Ok_inv in H. destruct H as [u [_ H]]. injection H as <-.
  constructor; [reflexivity | constructor].
Qed.

Lemma downsample_stages_default_bias (stride : Z) (ns : list Z)
  (st st' : list (string * Submodule) * Z * option Z) :
  foldM (NLayerDiscriminator.downsample_stage stride) ns st = Ok st' ->
  Forall (fun kv => Forall default_bias (submodule_convs (snd kv))) (fst (fst st)) ->
  Forall (fun kv => Forall default_bias (submodule_convs (snd kv))) (fst (fst st')).
Proof.
  revert st; induction ns as [| n ns IH]; intros st H HP; cbn [foldM] in H.
  - injection H as <-; exact HP.
  - apply bind_Ok_inv in H. destruct H as [st1 [H1 H]].
    apply (IH st1 H). destruct st as [[model nf] nf_prev].
    unfold NLayerDiscriminator.downsample_stage in H1.
    apply bind_Ok_inv in H1. destruct H1 as [c [Hc H1]]. injection H1 as <-.
    cbn [fst].
    apply (dict_set_Forall (fun m => Forall default_bias (submodule_convs m)));
      [exact HP |].
    cbn [submodule_convs flat_map layer_convs]. rewrite app_nil_r.
    apply (WNConv1d_default_bias _ _ _ _ _ _ _ _ Hc).
Qed.

Lemma NLayerDiscriminator_init_default_bias (ndf n_layers downsampling_factor : Z)
  (d : NLayerDiscriminator.t) :
  NLayerDiscriminator.init ndf n_layers downsampling_factor = Ok d ->
  Forall default_bias (nld_convs d).
Proof.
  unfold NLayerDiscriminator.init. intros H.
  apply bind_Ok_inv in H. destruct H as [c0 [Hc0 H]].
  apply bind_Ok_inv in H. destruct H as [[[model nf] nf_prev] [Hst H]].
  apply downsample_stages_default_bias in Hst.
  2:{ cbn [fst dict_set]. constructor; [| constructor].
      cbn [snd submodule_convs flat_map layer_convs app].
      rewrite app_nil_r. apply (WNConv1d_default_bias _ _ _ _ _ _ _ _ Hc0). }
  cbn [fst] in Hst.
  apply bind_Ok_inv in H. destruct H as [nf_prev' [_ H]].
  apply bind_Ok_inv in H. destruct H as [c5 [Hc5 H]].
  apply bind_Ok_inv in H. destruct H as [c6 [Hc6 H]].
  apply bind_Ok_inv in H. destruct H as [toplayer [Htop H]].
  repeat (apply bind_Ok_inv in H; destruct H as [? [? H]]).
  injection H as <-.
  unfold nld_convs, nld_layers.
  cbn [NLayerDiscriminator.model NLayerDiscriminator.toplayer
       NLayerDiscriminator.smooth1 NLayerDiscriminator.smooth2
       NLayerDiscriminator.smooth3 NLayerDiscriminator.smooth4
       NLayerDiscriminator.latlayer1 NLayerDiscriminator.latlayer2
       NLayerDiscriminator.latlayer3 NLayerDiscriminator.latlayer4
       NLayerDiscriminator.conv1d_0 NLayerDiscriminator.conv1d_1
       NLayerDiscriminator.conv1d_2 NLayerDiscriminator.conv1d_3
       NLayerDiscriminator.conv1d_4].
  apply Forall_app. split.
  - apply Forall_flat_map.
    apply (dict_set_Forall (fun m => Forall default_bias (submodule_convs m))).
    + apply (dict_set_Forall (fun m => Forall default_bias (submodule_convs m)));
        [exact Hst |].
      cbn [submodule_convs flat_map layer_convs]. rewrite app_nil_r.
      apply (WNConv1d_default_bias _ _ _ _ _ _ _ _ Hc5).
    + cbn [submodule_convs]. apply (WNConv1d_default_bias _ _ _ _ _ _ _ _ Hc6).
  - cbn [flat_map]. rewrite app_nil_r.
    repeat (apply Forall_app; split);
      first [ eapply Conv1d_init_default_bias; eassumption
            | eapply WNConv1d_default_bias; eassumption
            | eapply WNConvTranspose1d_default_bias; eassumption ].
Qed.

Lemma NLayerDiscriminator_weights_init_redraws (d d' : NLayerDiscriminator.t) :
  NLayerDiscriminator.apply_weights_init d = Ok d' ->
  Forall default_bias (nld_convs d) -> Forall redrawn (nld_convs d').
Proof.
  unfold NLayerDiscriminator.apply_weights_init. intros H HP.
  apply bind_Ok_inv in H. destruct H as [model' [Hm H]].
  repeat (apply bind_Ok_inv in H; destruct H as [? [? H]]).
  injection H as <-.
  unfold nld_convs, nld_layers in *.
  cbn [NLayerDiscriminator.model NLayerDiscriminator.toplayer
       NLayerDiscriminator.smooth1 NLayerDiscriminator.smooth2
       NLayerDiscriminator.smooth3 NLayerDiscriminator.smooth4
       NLayerDiscriminator.latlayer1 NLayerDiscriminator.latlayer2
       NLayerDiscriminator.latlayer3 NLayerDiscriminator.latlayer4
       NLayerDiscriminator.conv1d_0 NLayerDiscriminator.conv1d_1
       NLayerDiscriminator.conv1d_2 NLayerDiscriminator.conv1d_3
       NLayerDiscriminator.conv1d_4].
  apply Forall_app in HP. destruct HP as [HPm HPl].
  apply Forall_app. split.
  - apply Forall_flat_map. apply Forall_flat_map in HPm.
    refine (mapM_Forall _ _ _ _ _ _ Hm HPm).
    intros [k m] [k' m'] Hd Hf. cbn [snd] in *.
    apply bind_Ok_inv in Hf. destruct Hf as [m'' [Hw Hf]].
    injection Hf as _ <-. apply (submodule_weights_init_redraws m m'' Hw Hd).
  - cbn [flat_map] in *. rewrite app_nil_r in *.
    repeat match type of HPl with
    | Forall _ (_ ++ _) =>
        apply Forall_app in HPl; destruct HPl as [? HPl]
    end.
    repeat (apply Forall_app; split);
      eapply weights_init_redraws; eassumption.
Qed.

(** X16: after construction of a Discriminator, for every choice of the
    constructor arguments, every convolutional and transposed-convolutional
    layer of every sub-discriminator (the plain [toplayer] included) has
    had its [weight] attribute redrawn by [normal_(0.0, 0.02)], and its
    bias is as the layer's own constructor drew it. *)
Theorem Discriminator_weights_init (num_D ndf n_layers downsampling_factor : Z)
  (d : Discriminator.t) (c : ConvNd) :
  Discriminator.init num_D ndf n_layers downsampling_factor = Ok d ->
  In c (discriminator_convs d) ->
  weight (params c) = normal_ 0 (2 # 100) /\ bias (params c) = reset_parameters.
Proof.
  unfold Discriminator.init. intros H.
  apply bind_Ok_inv in H. destruct H as [model [Hm H]].
  apply (discriminator_members (fun d => Forall default_bias (nld_convs d))) in Hm;
    [| apply NLayerDiscriminator_init_default_bias | constructor].
  destruct Hm as [HP _].
  unfold Discriminator.apply_weights_init in H.
  cbn [Discriminator.model Discriminator.downsample] in H.
  apply bind_Ok_inv in H. destruct H as [model' [Hm' H]].
  apply bind_Ok_inv in H. destruct H as [u [_ H]].
  apply bind_Ok_inv in H. destruct H as [downsample' [Hdown H]].
  apply bind_Ok_inv in H. destruct H as [u' [_ H]].
  injection H as <-. injection Hdown as <-.
  assert (HQ : Forall (fun kv => Forall redrawn (nld_convs (snd kv))) model').
  { refine (mapM_Forall _ _ _ _ _ _ Hm' HP).
    intros [k v] [k' v'] Hv Hf. cbn [snd] in *.
    apply bind_Ok_inv in Hf. destruct Hf as [v'' [Hw Hf]].
    injection Hf as _ <-.
    apply (NLayerDiscriminator_weights_init_redraws v v'' Hw Hv). }
  unfold discriminator_convs.
  cbn [Discriminator.model Discriminator.downsample layer_convs].
  rewrite app_nil_r. intros Hc.
  apply Forall_flat_map in HQ. rewrite Forall_forall in HQ.
  exact (HQ c Hc).
Qed.

Lemma Discriminator_weights_init_witness :
  exists d c,
    Discriminator.init 3 16 4 4 = Ok d /\
    In c (discriminator_convs d) /\
    in_channels c = 1 /\ out_channels c = 16 /\
    weight (params c) = normal_ 0 (2 # 100) /\ bias (params c) = reset_parameters.
Proof.
  eexists. eexists.
  split; [vm_compute; reflexivity |].
  split; [left; reflexivity |].
  split; [reflexivity |]. split; [reflexivity |].
  eapply (Discriminator_weights_init 3 16 4 4);
    [vm_compute; reflexivity | left; reflexivity].
Defined.

(** X3: whenever the forward pass of a constructed generator returns, the
    output has one channel and [hop_length] samples per input frame, where
    [hop_length] is the attribute the constructor stored. *)
Theorem Generator_forward_hop_length (input_size ngf n_residual_layers : Z)
  (g : Generator.t) (batch channels frames : Z) (s : Shape.t) :
  Generator.init input_size ngf n_residual_layers = Ok g ->
  Generator.forward g [batch; channels; frames] = Ok s ->
  s = [batch; 1; frames * Generator.hop_length g].
Proof.
  rewrite Generator_init_eq. intros [= <-]. unfold Generator.forward.
  cbn [Generator.model Generator.hop_length]. intros H.
  destruct (generator_layers_Ok_inv _ _ _ _ _ _ H) as (b & f & E & Hf & Hn).
  injection E as -> -> ->.
  rewrite generator_layers_size in H by assumption. congruence.
Qed.

Lemma Generator_forward_hop_length_witness :
  exists g s,
    Generator.init 80 32 3 = Ok g /\
    Generator.forward g [2; 80; 5] = Ok s /\
    s = [2; 1; 5 * Generator.hop_length g].
Proof.
  eexists. eexists.
  split; [apply Generator_init_eq |].
  split; [vm_compute; reflexivity |].
  eapply (Generator_forward_hop_length 80 32 3 _ 2 80 5);
    [apply Generator_init_eq | vm_compute; reflexivity].
Defined.

(* ===================================================================== *)
(** * Weight normalisation: the direction's scale and the wrapped weight *)
(* ===================================================================== *)

#[local] Open Scope R_scope.

Lemma compute_slice_scale (g k : R) (s : WeightNorm.slice) :
  0 < k -> WeightNorm.norm (WeightNorm.flatten s) <> 0 ->
  WeightNorm.compute_slice g (map (map (fun x => x * k)) s)
  = WeightNorm.compute_slice g s.
Proof.
  intros Hk Hn. unfold WeightNorm.compute_slice.
  replace (WeightNorm.flatten (map (map (fun x => x * k)) s))
    with (map (fun x => x * k) (WeightNorm.flatten s))
    by (unfold WeightNorm.flatten; apply concat_map).
  rewrite norm_scale, (Rabs_pos_eq k) by lra.
  rewrite map_map. apply map_ext. intros row.
  rewrite map_map. apply map_ext. intros x. field. split; lra.
Qed.

(** X17: the effective weight does not change when one slice of the
    stored direction along dimension 0 (the direction of an output channel
    of a [WNConv1d], of an input channel of a [WNConvTranspose1d]) is
    multiplied by a positive factor: only the direction of each slice of
    [weight_v] matters. *)
Theorem weight_norm_scale_invariant (weight_g : list R)
  (weight_v : WeightNorm.tensor) (c : nat) (k : R) (s : WeightNorm.slice) :
  0 < k ->
  nth_error weight_v c = Some s ->
  WeightNorm.norm (WeightNorm.flatten s) <> 0 ->
  WeightNorm.compute_weight weight_g (WeightNorm.scale_dim0 c k weight_v)
  = WeightNorm.compute_weight weight_g weight_v.
Proof.
  intros Hk. revert weight_g c.
  induction weight_v as [| s0 vs IH]; intros weight_g [| c] Hs Hn;
    try discriminate; cbn in Hs.
  - injection Hs as <-. destruct weight_g as [| g gs]; [reflexivity |].
    cbn [WeightNorm.scale_dim0 WeightNorm.compute_weight].
    rewrite compute_slice_scale by assumption. reflexivity.
  - destruct weight_g as [| g gs]; [reflexivity |].
    cbn [WeightNorm.scale_dim0 WeightNorm.compute_weight].
    rewrite (IH gs c Hs Hn). reflexivity.
Qed.

Lemma weight_norm_scale_invariant_witness :
  WeightNorm.compute_weight [2; 7]
    (WeightNorm.scale_dim0 1 10 [[[1]; [2]]; [[3]; [4]]])
  = WeightNorm.compute_weight [2; 7] [[[1]; [2]]; [[3]; [4]]].
Proof.
  apply (weight_norm_scale_invariant [2; 7] [[[1]; [2]]; [[3]; [4]]] 1 10
           [[3]; [4]]).
  - lra.
  - reflexivity.
  - change (WeightNorm.flatten [[3]; [4]]) with [3; 4]. rewrite norm_3_4. lra.
Defined.

(** X18: at the moment a layer is wrapped, [weight_norm] stores the weight
    as the direction and the norm of each of its slices along dimension 0
    as the magnitude; the effective weight recomputed from them is the
    weight the layer had. *)
Theorem weight_norm_preserves_weight (v : list R) :
  WeightNorm.norm v <> 0 ->
  WeightNorm.compute_channel (WeightNorm.norm v) v = v.
Proof.
  intros Hv. unfold WeightNorm.compute_channel.
  transitivity (map (fun x => x) v); [| apply map_id].
  apply map_ext. intros x. field. exact Hv.
Qed.

Lemma weight_norm_preserves_weight_witness :
  WeightNorm.compute_channel (WeightNorm.norm [3; 4]) [3; 4] = [3; 4].
Proof.
  apply (weight_norm_preserves_weight [3; 4]). rewrite norm_3_4. lra.
Defined.
